(** * Antibiotic MIC dashboard: the data pipeline of [pen_data.py]

    A shallow embedding of the load / reshape / aggregate code of the
    dashboard script, and the properties of it that the specification
    states.  Numbers are IEEE binary64 values (Rocq's primitive floats),
    a raw record is a finite map from field names to JSON scalars, and
    Python exceptions are the [Raise] branch of a result type. *)

From Stdlib Require Import ZArith List String Floats Lia Bool.
From stdpp Require Import base option list gmap strings.

Open Scope string_scope.
Open Scope list_scope.

#[local] Set Warnings "-inexact-float".

(** ** Exceptions *)

(** The exceptions the modelled code can raise.  [LabelError] is the
    [KeyError] that [.loc] raises for a label that is not in the index. *)
Inductive exn : Type :=
  | KeyError (key : string)
  | LabelError (label : nat)
  | TypeError
  | ValueError.

Inductive result (A : Type) : Type :=
  | Ok (a : A)
  | Raise (e : exn).
Arguments Ok {A} a.
Arguments Raise {A} e.

(** Sequencing: an exception raised by [m] ends the computation. *)
#[global] Instance result_bind : MBind result := λ A B k m,
  match m with
  | Ok a => k a
  | Raise e => Raise e
  end.

(** ** Raw records *)

(** The values a field of a record of the JSON file holds: null, a number
    or a string (booleans, arrays and objects, which the dataset does not
    use, are left out).

    [JNum x] is a number that Python, NumPy and pandas all hold as the
    binary64 value [x]: a JSON real, one of the literals [NaN] and
    [Infinity] that [json.load] accepts, or an integer of magnitude at
    most 2^53.  [JBig n] is an integer literal outside the range of the
    64-bit integers, which [json.load] returns as a Python [int] that
    NumPy cannot convert.  The integers in between are not modelled. *)
Inductive json : Type :=
  | JNull
  | JNum (x : float)
  | JStr (s : string)
  | JBig (n : Z).

(** [record[key]] on a Python dict. *)
Definition getitem (record : gmap string json) (key : string) : result json :=
  match record !! key with
  | Some v => Ok v
  | None => Raise (KeyError key)
  end.

(** ** [np.log10] *)

(** The value of [np.log10].  At zero, below zero, at NaN and at
    infinity it is fixed by IEEE 754 (and only warns); at a positive
    finite [x] it is the binary64 value the C library's [log10] gives,
    kept symbolically as [Log10 x]. *)
Inductive log10_value : Type :=
  | LogNegInf
  | LogNaN
  | LogPosInf
  | Log10 (x : float).

Definition np_log10_float (x : float) : log10_value :=
  if is_nan x then LogNaN
  else if (x =? 0)%float then LogNegInf
  else if (x <? 0)%float then LogNaN
  else if (x =? infinity)%float then LogPosInf
  else Log10 x.

(** [np.log10] raises a [TypeError] on [None], on a string and on an
    integer outside the range of the 64-bit integers. *)
Definition np_log10 (v : json) : result log10_value :=
  match v with
  | JNum x => Ok (np_log10_float x)
  | JNull | JStr _ | JBig _ => Raise TypeError
  end.

(** ** Normalized rows *)

(** One dict appended to [transformed_data].  The dict is only built when
    [np.log10(record[antibiotic])] has returned, so its [mic] is a number. *)
Record row : Type := {
  bacteria : json;
  antibiotic : string;
  mic : float;
  gram_staining : json;
  genus : json;
  log_mic : log10_value
}.

Definition antibiotics : list string := ["Penicillin"; "Streptomycin"; "Neomycin"].

(** The dict display of lines 30-37: its values are evaluated in the
    order they are written. *)
Definition transformed_entry (record : gmap string json) (antibiotic : string)
  : result row :=
  b ← getitem record "Bacteria";
  m ← getitem record antibiotic;
  g ← getitem record "Gram_Staining";
  ge ← getitem record "Genus";
  m' ← getitem record antibiotic;
  l ← np_log10 m';
  match m with
  | JNum x =>
      Ok {| bacteria := b; antibiotic := antibiotic; mic := x;
            gram_staining := g; genus := ge; log_mic := l |}
  | JNull | JStr _ | JBig _ => Raise TypeError
  end.

(** A [for] loop that appends one computed entry to a list per element
    of [xs]; an exception raised by the body ends it. *)
Fixpoint for_each {X A : Type} (body : X -> result A) (xs : list X)
    (acc : list A) : result (list A) :=
  match xs with
  | [] => Ok acc
  | x :: xs' =>
      entry ← body x;
      for_each body xs' (acc ++ [entry])
  end.

(** The inner loop: one [append] per antibiotic, in the order of the list. *)
Definition transform_record (record : gmap string json)
    (transformed_data : list row) : result (list row) :=
  for_each (transformed_entry record) antibiotics transformed_data.

(** The outer loop over [raw_data]. *)
Fixpoint transform_records (raw_data : list (gmap string json))
    (transformed_data : list row) : result (list row) :=
  match raw_data with
  | [] => Ok transformed_data
  | record :: raw_data' =>
      transformed_data' ← transform_record record transformed_data;
      transform_records raw_data' transformed_data'
  end.

(** [load_and_transform_data], from the parsed JSON array on: the list
    that is handed to [pd.DataFrame]. *)
Definition load_and_transform_data (raw_data : list (gmap string json))
  : result (list row) :=
  transform_records raw_data [].

(** ** Data frames *)

(** A [pd.Series]: the values of one column, each with its index label. *)
Definition Series (A : Type) : Type := list (nat * A).

(** A [pd.DataFrame] of normalized rows, each with its index label.  A
    frame built from an empty list of dicts has no columns at all;
    selecting rows of a frame keeps its columns, also when no row is
    left. *)
Record DataFrame : Type := {
  has_columns : bool;
  items : list (nat * row)
}.

(** [pd.DataFrame(transformed_data)]: the labels are the positions 0, 1, ... *)
Definition pd_DataFrame (transformed_data : list row) : DataFrame :=
  {| has_columns := negb (Nat.eqb (length transformed_data) 0);
     items := combine (seq 0 (length transformed_data)) transformed_data |}.

(** [df[name]]: a [KeyError] when the frame has no such column. *)
Definition column {A : Type} (df : DataFrame) (name : string) (field : row -> A)
  : result (Series A) :=
  if has_columns df
  then Ok (map (fun ir => (fst ir, field (snd ir))) (items df))
  else Raise (KeyError name).

(** [series == value], element by element.  A value that is not a string
    is different from every string. *)
Definition json_eq_str (v : json) (s : string) : bool :=
  match v with
  | JStr t => String.eqb t s
  | JNull | JNum _ | JBig _ => false
  end.

Definition series_eq {A : Type} (eq : A -> string -> bool) (s : Series A)
    (value : string) : Series bool :=
  map (fun iv => (fst iv, eq (snd iv) value)) s.

(** [mask1 & mask2] on two boolean series over the same index. *)
Definition series_and (mask1 mask2 : Series bool) : Series bool :=
  map (fun ab => (fst (fst ab), snd (fst ab) && snd (snd ab))) (combine mask1 mask2).

(** [df[mask]]: the rows where the mask holds, labels and order kept. *)
Definition select (df : DataFrame) (mask : Series bool) : DataFrame :=
  {| has_columns := has_columns df;
     items := map fst (List.filter (fun im => snd (snd im)) (combine (items df) mask)) |}.

(** *** [Series.mean] *)

(** Missing values (NaN) are skipped; the rest is added up and divided
    by its count; the mean of nothing is NaN.  The sum is accumulated in
    row order, which is the order NumPy adds a series of fewer than eight
    values in (it groups the additions of a longer one in blocks). *)
Definition dropna (values : list float) : list float :=
  List.filter (fun x => negb (is_nan x)) values.

Definition fsum (values : list float) : float :=
  fold_left PrimFloat.add values 0%float.

Definition float_of_nat (n : nat) : float :=
  of_uint63 (Uint63.of_Z (Z.of_nat n)).

Definition mean_values (values : list float) : float :=
  let kept := dropna values in
  if Nat.eqb (length kept) 0 then nan
  else (fsum kept / float_of_nat (length kept))%float.

Definition mean (s : Series float) : float := mean_values (map snd s).

(** *** [Series.idxmin], [Series.idxmax] and [.loc] *)

(** The scan of [argmin] / [argmax]: a later value replaces the current
    one only when it is strictly better, so the first of several equal
    extrema is kept. *)
Fixpoint first_best (better : float -> float -> bool) (best : nat * float)
    (s : Series float) : nat * float :=
  match s with
  | [] => best
  | iv :: s' => first_best better (if better (snd iv) (snd best) then iv else best) s'
  end.

(** Missing values are replaced by the worst value before the scan. *)
Definition fillna (worst : float) (s : Series float) : Series float :=
  map (fun iv => (fst iv, if is_nan (snd iv) then worst else snd iv)) s.

(** A [ValueError] on an empty series.  A series of missing values only
    has no extremum either: the expression that uses the label fails
    (in [idxmin] itself, or in the [.loc] that receives NaN as label).
    Replacing the missing values by the worst value is one of the two
    ways pandas has passed them over; skipping them in the scan, the
    other, gives the same label on every series that has a value which
    is neither missing nor the worst one. *)
Definition idx_best (better : float -> float -> bool) (worst : float)
    (s : Series float) : result nat :=
  if forallb (fun iv => is_nan (snd iv)) s then Raise ValueError
  else
    match fillna worst s with
    | [] => Raise ValueError
    | iv :: s' => Ok (fst (first_best better iv s'))
    end.

Definition idxmin : Series float -> result nat := idx_best PrimFloat.ltb infinity.
Definition idxmax : Series float -> result nat :=
  idx_best (fun x y => PrimFloat.ltb y x) neg_infinity.

(** [df.loc[label]]: the row that carries the label. *)
Fixpoint loc_items (its : list (nat * row)) (label : nat) : result row :=
  match its with
  | [] => Raise (LabelError label)
  | ir :: its' => if Nat.eqb (fst ir) label then Ok (snd ir) else loc_items its' label
  end.

Definition loc (df : DataFrame) (label : nat) : result row := loc_items (items df) label.

(** ** Key statistics (lines 44-46) *)

Definition group_mask (df : DataFrame) (gram : string) (name : string)
  : result (Series bool) :=
  g ← column df "gram_staining" gram_staining;
  a ← column df "antibiotic" antibiotic;
  Ok (series_and (series_eq json_eq_str g gram) (series_eq String.eqb a name)).

Definition group_mean (df : DataFrame) (gram : string) (name : string) : result float :=
  mask ← group_mask df gram name;
  m ← column (select df mask) "mic" mic;
  Ok (mean m).

Definition gram_pos_pen (df : DataFrame) : result float :=
  group_mean df "positive" "Penicillin".

Definition gram_neg_pen (df : DataFrame) : result float :=
  group_mean df "negative" "Penicillin".

(** The division is NumPy's: dividing by zero gives an infinity or NaN. *)
Definition effectiveness_ratio (df : DataFrame) : result float :=
  pos ← gram_pos_pen df;
  neg ← gram_neg_pen df;
  Ok (neg / pos)%float.

(** ** Summary table (lines 209-221) *)

(** One entry of [summary_stats]; the three numbers are kept as they are
    before they are formatted for display. *)
Record summary_entry : Type := {
  s_antibiotic : string;
  s_pos_avg : float;
  s_neg_avg : float;
  s_ratio : float
}.

Definition summary_for (df : DataFrame) (name : string) : result summary_entry :=
  a ← column df "antibiotic" antibiotic;
  let antibiotic_data := select df (series_eq String.eqb a name) in
  g ← column antibiotic_data "gram_staining" gram_staining;
  m ← column (select antibiotic_data (series_eq json_eq_str g "positive")) "mic" mic;
  let pos_avg := mean m in
  g' ← column antibiotic_data "gram_staining" gram_staining;
  m' ← column (select antibiotic_data (series_eq json_eq_str g' "negative")) "mic" mic;
  let neg_avg := mean m' in
  let ratio := (neg_avg / pos_avg)%float in
  Ok {| s_antibiotic := name; s_pos_avg := pos_avg; s_neg_avg := neg_avg;
        s_ratio := ratio |}.

Definition summary_stats (df : DataFrame) : result (list summary_entry) :=
  for_each (summary_for df) antibiotics [].

(** ** Most and least effective cases (lines 270-296) *)

Definition extremum_row (idx : Series float -> result nat) (df : DataFrame)
    (name : string) : result row :=
  a ← column df "antibiotic" antibiotic;
  let rows_of := select df (series_eq String.eqb a name) in
  a' ← column df "antibiotic" antibiotic;
  m ← column (select df (series_eq String.eqb a' name)) "mic" mic;
  label ← idx m;
  loc rows_of label.

Definition best (df : DataFrame) (name : string) : result row :=
  extremum_row idxmin df name.

Definition worst (df : DataFrame) (name : string) : result row :=
  extremum_row idxmax df name.

(** One entry of [most_effective] / [least_effective]. *)
Record effective_entry : Type := {
  e_antibiotic : string;
  e_bacteria : json;
  e_mic : float;
  e_gram_staining : json
}.

Definition effective_for (pick : DataFrame -> string -> result row) (df : DataFrame)
    (name : string) : result effective_entry :=
  r ← pick df name;
  Ok {| e_antibiotic := name; e_bacteria := bacteria r; e_mic := mic r;
        e_gram_staining := gram_staining r |}.

Definition most_effective (df : DataFrame) : result (list effective_entry) :=
  for_each (effective_for best df) antibiotics [].

Definition least_effective (df : DataFrame) : result (list effective_entry) :=
  for_each (effective_for worst df) antibiotics [].

(** ** Data explorer (lines 312-316) *)

Definition filtered_df (df : DataFrame) (selected_gram selected_antibiotic : string)
  : result DataFrame :=
  let filtered := df in
  filtered ←
    (if negb (String.eqb selected_gram "All")
     then g ← column filtered "gram_staining" gram_staining;
          Ok (select filtered (series_eq json_eq_str g selected_gram))
     else Ok filtered);
  filtered ←
    (if negb (String.eqb selected_antibiotic "All")
     then a ← column filtered "antibiotic" antibiotic;
          Ok (select filtered (series_eq String.eqb a selected_antibiotic))
     else Ok filtered);
  Ok filtered.

(** ** Predicates of the statements *)

(** The shape the loader reads from a record: the three descriptive
    fields are present, and each antibiotic has a number that
    [np.log10] takes. *)
Definition present (v : option json) : bool :=
  match v with
  | Some _ => true
  | None => false
  end.

Definition numeric (v : option json) : bool :=
  match v with
  | Some (JNum _) => true
  | _ => false
  end.

Definition well_shaped (record : gmap string json) : bool :=
  present (record !! "Bacteria") && present (record !! "Gram_Staining")
  && present (record !! "Genus")
  && forallb (fun name => numeric (record !! name)) antibiotics.

(** A positive finite number: the values the specification allows as MIC. *)
Definition positive_finite (x : float) : bool :=
  (0 <? x)%float && (x <? infinity)%float.

(** The row is in the group of the given gram staining and antibiotic. *)
Definition in_group (gram name : string) (r : row) : bool :=
  json_eq_str (gram_staining r) gram && String.eqb (antibiotic r) name.

(** The [mic] values of a group, in row order. *)
Definition group_mics (gram name : string) (rows : list row) : list float :=
  map mic (List.filter (in_group gram name) rows).

(** The rows of a frame, without their labels. *)
Definition rows_of (df : DataFrame) : list row := map snd (items df).

(** The labels of the items grow strictly, starting at [k] or above. *)
Fixpoint increasing (k : nat) (its : list (nat * row)) : Prop :=
  match its with
  | [] => True
  | ir :: its' => k <= fst ir /\ increasing (S (fst ir)) its'
  end.

(** The six fields of a record of the dataset. *)
Definition fields : list string :=
  ["Bacteria"; "Gram_Staining"; "Genus"] ++ antibiotics.


(** The value that stands for [x] in the scan for an extremum: the
    worst value when [x] is missing. *)
Definition filled (worst_value x : float) : float :=
  if is_nan x then worst_value else x.

(** The numbers that the records of the given gram staining have for an
    antibiotic, in the order of the records. *)
Definition record_values (gram name : string) (raw : list (gmap string json))
  : list float :=
  flat_map
    (fun record =>
       match record !! "Gram_Staining", record !! name with
       | Some g, Some (JNum x) => if json_eq_str g gram then [x] else []
       | _, _ => []
       end) raw.

(** ** Sample data *)

(** A record of the JSON file with the six fields of the dataset. *)
Definition raw_record (name genus_name gram : string) (penicillin streptomycin neomycin : float)
  : gmap string json :=
  list_to_map [("Bacteria", JStr name); ("Penicillin", JNum penicillin);
               ("Streptomycin", JNum streptomycin); ("Neomycin", JNum neomycin);
               ("Gram_Staining", JStr gram); ("Genus", JStr genus_name)].

(** The two-record scenario of the specification. *)
Definition two_species : list (gmap string json) :=
  [raw_record "S. pyogenes" "Streptococcus" "positive" 0.01 14 10;
   raw_record "E. coli" "other" "negative" 100 0.4 0.1].


(** A normalized row of the given species, antibiotic and gram staining. *)
Definition sample_row (name gram drug : string) (x : float) : row :=
  {| bacteria := JStr name; antibiotic := drug; mic := x;
     gram_staining := JStr gram; genus := JStr "other";
     log_mic := np_log10_float x |}.

(** A table with Penicillin rows of gram-negative species only. *)
Definition negative_only : list row :=
  [sample_row "E. coli" "negative" "Penicillin" 100;
   sample_row "E. coli" "negative" "Neomycin" 0.1].

(** Two tables with the same rows in two orders: one gram-positive and
    three gram-negative Penicillin rows. *)
Definition rising : list row :=
  [sample_row "A" "positive" "Penicillin" 1;
   sample_row "B" "negative" "Penicillin" 0.1;
   sample_row "C" "negative" "Penicillin" 0.2;
   sample_row "D" "negative" "Penicillin" 0.3].

Definition falling : list row :=
  [sample_row "A" "positive" "Penicillin" 1;
   sample_row "D" "negative" "Penicillin" 0.3;
   sample_row "C" "negative" "Penicillin" 0.2;
   sample_row "B" "negative" "Penicillin" 0.1].

(** The rows of [rising] again, the gram-positive one moved to the end. *)
Definition rising_positive_last : list row :=
  [sample_row "B" "negative" "Penicillin" 0.1;
   sample_row "C" "negative" "Penicillin" 0.2;
   sample_row "D" "negative" "Penicillin" 0.3;
   sample_row "A" "positive" "Penicillin" 1].

(** A record whose gram staining is neither of the two recognized values. *)
Definition unstained : gmap string json :=
  raw_record "M. tuberculosis" "other" "variable" 800 5 2.

(** A table in which two Penicillin rows tie for the lowest and two for
    the highest [mic]. *)
Definition tied_rows : list row :=
  [sample_row "A" "positive" "Penicillin" 1;
   sample_row "B" "negative" "Penicillin" 5;
   sample_row "C" "positive" "Penicillin" 1;
   sample_row "D" "negative" "Penicillin" 5;
   sample_row "A" "positive" "Neomycin" 0.5].

(** ** The script as a whole *)

(** The values the script computes, in the order it computes them; the
    calls that render them on the page are left out. *)
Record dashboard : Type := {
  d_df : DataFrame;
  d_gram_pos_pen : float;
  d_gram_neg_pen : float;
  d_effectiveness_ratio : float;
  d_comparison_data : list (string * float);
  d_summary_stats : list summary_entry;
  d_most_effective : list effective_entry;
  d_least_effective : list effective_entry;
  d_filtered_df : DataFrame
}.

(** One run of the script on the parsed JSON array, with the two values
    chosen in the select boxes. *)
Definition run_script (raw_data : list (gmap string json))
    (selected_gram selected_antibiotic : string) : result dashboard :=
  transformed_data ← load_and_transform_data raw_data;
  let df := pd_DataFrame transformed_data in
  pos ← gram_pos_pen df;
  neg ← gram_neg_pen df;
  let ratio := (neg / pos)%float in
  let comparison_data := [("Gram-positive", pos); ("Gram-negative", neg)] in
  summary ← summary_stats df;
  most ← most_effective df;
  least ← least_effective df;
  filtered ← filtered_df df selected_gram selected_antibiotic;
  Ok {| d_df := df; d_gram_pos_pen := pos; d_gram_neg_pen := neg;
        d_effectiveness_ratio := ratio; d_comparison_data := comparison_data;
        d_summary_stats := summary; d_most_effective := most;
        d_least_effective := least; d_filtered_df := filtered |}.

(** ** Order of binary64 values *)

Section FloatOrder.

Ltac sf_split :=
  repeat match goal with
  | s : bool |- _ => destruct s
  end.

Ltac sf_cmp :=
  repeat (simpl in *; match goal with
  | H : context [Pos.compare_cont Eq ?a ?b] |- _ =>
      change (Pos.compare_cont Eq a b) with (Pos.compare a b) in H;
      destruct (Pos.compare_spec a b)
  | |- context [Pos.compare_cont Eq ?a ?b] =>
      change (Pos.compare_cont Eq a b) with (Pos.compare a b);
      destruct (Pos.compare_spec a b)
  | H : context [Z.compare ?a ?b] |- _ => destruct (Z.compare_spec a b)
  | |- context [Z.compare ?a ?b] => destruct (Z.compare_spec a b)
  end); simpl in *; try congruence; try lia.

Ltac sf_cases := intros; try congruence; sf_split; sf_cmp.

Lemma SFltb_false_leb (x y : spec_float) :
  x <> S754_nan -> y <> S754_nan -> SFltb x y = false -> SFleb y x = true.
Proof. unfold SFltb, SFleb. destruct x, y; sf_cases. Qed.

Lemma SFltb_leb_trans (a b x : spec_float) :
  SFltb a b = true -> SFleb b x = true -> SFltb a x = true.
Proof. unfold SFltb, SFleb. destruct a, b, x; sf_cases. Qed.

Lemma SFleb_ltb_trans (a b x : spec_float) :
  SFleb a b = true -> SFltb b x = true -> SFltb a x = true.
Proof. unfold SFltb, SFleb. destruct a, b, x; sf_cases. Qed.

Lemma SFleb_trans (a b x : spec_float) :
  SFleb a b = true -> SFleb b x = true -> SFleb a x = true.
Proof. unfold SFleb. destruct a, b, x; sf_cases. Qed.

Lemma SFltb_asym (a b : spec_float) : SFltb a b = true -> SFltb b a = false.
Proof. unfold SFltb. destruct a, b; sf_cases. Qed.

Lemma SFltb_leb_false (a b : spec_float) : SFltb a b = true -> SFleb b a = false.
Proof. unfold SFltb, SFleb. destruct a, b; sf_cases. Qed.

Lemma SFltb_neq (a b : spec_float) :
  SFltb a b = true -> SFeqb a b = false /\ SFeqb b a = false.
Proof. unfold SFltb, SFeqb. destruct a, b; sf_cases; split; sf_cmp. Qed.

Lemma SFltb_leb (a b : spec_float) : SFltb a b = true -> SFleb a b = true.
Proof. unfold SFltb, SFleb. destruct a, b; sf_cases. Qed.

Lemma SFleb_refl (a : spec_float) : a <> S754_nan -> SFleb a a = true.
Proof. unfold SFleb. destruct a; sf_cases. Qed.

Lemma SFleb_antisym (a b : spec_float) :
  SFleb a b = true -> SFleb b a = true -> SFeqb a b = true.
Proof. unfold SFleb, SFeqb. destruct a, b; sf_cases. Qed.

Lemma SFeqb_refl (a : spec_float) : a <> S754_nan -> SFeqb a a = true.
Proof. unfold SFeqb. destruct a; sf_cases. Qed.

Lemma SFeqb_nan_l (a : spec_float) : SFeqb S754_nan a = false.
Proof. reflexivity. Qed.


Lemma SFltb_nan_r (a : spec_float) : SFltb a S754_nan = false.
Proof. now destruct a. Qed.

Lemma SFleb_nan_r (a : spec_float) : SFleb a S754_nan = false.
Proof. now destruct a. Qed.

(** The same facts on primitive floats. *)

Lemma is_nan_Prim2SF (x : float) : is_nan x = true <-> Prim2SF x = S754_nan.
Proof.
  unfold is_nan. rewrite FloatAxioms.eqb_spec. split.
  - intros H. destruct (Prim2SF x) eqn:E; try reflexivity;
      rewrite SFeqb_refl in H by discriminate; discriminate.
  - intros ->. reflexivity.
Qed.

Lemma not_nan_Prim2SF (x : float) : is_nan x = false <-> Prim2SF x <> S754_nan.
Proof.
  rewrite <- is_nan_Prim2SF. destruct (is_nan x); split; congruence.
Qed.

Lemma ltb_false_leb (x y : float) :
  is_nan x = false -> is_nan y = false -> (x <? y)%float = false -> (y <=? x)%float = true.
Proof.
  rewrite !not_nan_Prim2SF, ltb_spec, leb_spec. apply SFltb_false_leb.
Qed.

Lemma ltb_leb_trans (a b x : float) :
  (a <? b)%float = true -> (b <=? x)%float = true -> (a <? x)%float = true.
Proof. rewrite !ltb_spec, leb_spec. apply SFltb_leb_trans. Qed.

Lemma leb_ltb_trans (a b x : float) :
  (a <=? b)%float = true -> (b <? x)%float = true -> (a <? x)%float = true.
Proof. rewrite !ltb_spec, leb_spec. apply SFleb_ltb_trans. Qed.

Lemma leb_trans (a b x : float) :
  (a <=? b)%float = true -> (b <=? x)%float = true -> (a <=? x)%float = true.
Proof. rewrite !leb_spec. apply SFleb_trans. Qed.

Lemma ltb_asym (a b : float) : (a <? b)%float = true -> (b <? a)%float = false.
Proof. rewrite !ltb_spec. apply SFltb_asym. Qed.

Lemma ltb_leb_false (a b : float) : (a <? b)%float = true -> (b <=? a)%float = false.
Proof. rewrite ltb_spec, leb_spec. apply SFltb_leb_false. Qed.

Lemma ltb_neq (a b : float) :
  (a <? b)%float = true -> (a =? b)%float = false /\ (b =? a)%float = false.
Proof. rewrite ltb_spec, !FloatAxioms.eqb_spec. apply SFltb_neq. Qed.

Lemma ltb_leb (a b : float) : (a <? b)%float = true -> (a <=? b)%float = true.
Proof. rewrite ltb_spec, leb_spec. apply SFltb_leb. Qed.

Lemma leb_refl (a : float) : is_nan a = false -> (a <=? a)%float = true.
Proof. rewrite not_nan_Prim2SF, leb_spec. apply SFleb_refl. Qed.

Lemma leb_antisym (a b : float) :
  (a <=? b)%float = true -> (b <=? a)%float = true -> (a =? b)%float = true.
Proof. rewrite !leb_spec, FloatAxioms.eqb_spec. apply SFleb_antisym. Qed.

Lemma ltb_not_nan (a b : float) :
  (a <? b)%float = true -> is_nan a = false /\ is_nan b = false.
Proof.
  rewrite ltb_spec, !not_nan_Prim2SF. intros H. split; intros E; rewrite E in H.
  - discriminate.
  - rewrite SFltb_nan_r in H. discriminate.
Qed.


Lemma leb_not_nan (a b : float) :
  (a <=? b)%float = true -> is_nan a = false /\ is_nan b = false.
Proof.
  rewrite leb_spec, !not_nan_Prim2SF. intros H. split; intros E; rewrite E in H.
  - discriminate.
  - rewrite SFleb_nan_r in H. discriminate.
Qed.

End FloatOrder.

(** ** NaN and division *)

Section FloatDivision.

Lemma is_nan_eq (x : float) : is_nan x = true -> x = nan.
Proof.
  intros H. apply Prim2SF_inj. apply is_nan_Prim2SF in H. now rewrite H.
Qed.

Lemma div_nan_l (y : float) : (nan / y)%float = nan.
Proof.
  apply is_nan_eq, is_nan_Prim2SF. rewrite div_spec.
  change (Prim2SF nan) with S754_nan. reflexivity.
Qed.

Lemma div_nan_r (x : float) : (x / nan)%float = nan.
Proof.
  apply is_nan_eq, is_nan_Prim2SF. rewrite div_spec.
  change (Prim2SF nan) with S754_nan. unfold SF64div, SFdiv. now destruct (Prim2SF x).
Qed.

(** A positive number divided by zero is plus infinity. *)
Lemma div_positive_by_zero (x : float) :
  (0 <? x)%float = true -> (x / 0)%float = infinity.
Proof.
  intros Hpos. apply Prim2SF_inj. rewrite div_spec.
  rewrite ltb_spec in Hpos.
  change (Prim2SF 0) with (S754_zero false) in *.
  change (Prim2SF infinity) with (S754_infinity false).
  unfold SF64div, SFdiv. unfold SFltb, SFcompare in Hpos.
  destruct (Prim2SF x) as [s|s| |s m e]; try discriminate; destruct s; try discriminate;
    reflexivity.
Qed.

End FloatDivision.

(** ** The loader *)

Section Loader.

Lemma bind_Ok {A B : Type} (m : result A) (k : A -> result B) (b : B) :
  (m ≫= k) = Ok b <-> exists a, m = Ok a /\ k a = Ok b.
Proof.
  destruct m as [a|e]; simpl; split.
  - intros H. exists a. auto.
  - intros (a' & [= <-] & H). exact H.
  - discriminate.
  - intros (a' & [=] & _).
Qed.

Lemma getitem_Ok (record : gmap string json) (key : string) (v : json) :
  getitem record key = Ok v <-> record !! key = Some v.
Proof.
  unfold getitem. destruct (record !! key); split; congruence.
Qed.

Lemma transformed_entry_Ok (record : gmap string json) (name : string) (r : row) :
  transformed_entry record name = Ok r <->
  exists b g ge x,
    record !! "Bacteria" = Some b /\ record !! name = Some (JNum x) /\
    record !! "Gram_Staining" = Some g /\ record !! "Genus" = Some ge /\
    r = {| bacteria := b; antibiotic := name; mic := x; gram_staining := g;
           genus := ge; log_mic := np_log10_float x |}.
Proof.
  unfold transformed_entry, getitem. split.
  - destruct (record !! "Bacteria") as [b|]; [|discriminate].
    destruct (record !! name) as [[|x|s|n]|]; simpl; try discriminate;
    destruct (record !! "Gram_Staining") as [g|]; simpl; try discriminate;
    destruct (record !! "Genus") as [ge|]; simpl; try discriminate.
    intros [= <-]. exists b, g, ge, x. auto.
  - intros (b & g & ge & x & -> & -> & -> & -> & ->). reflexivity.
Qed.

Lemma for_each_Ok {X A : Type} (body : X -> result A) (xs : list X) (acc out : list A) :
  for_each body xs acc = Ok out <->
  exists ys, Forall2 (fun x y => body x = Ok y) xs ys /\ out = acc ++ ys.
Proof.
  revert acc out. induction xs as [|x xs IH]; intros acc out; simpl.
  - split.
    + intros [= <-]. exists []. split; [constructor|]. now rewrite app_nil_r.
    + intros (ys & Hys & ->). inversion Hys. now rewrite app_nil_r.
  - rewrite bind_Ok. split.
    + intros (y & Hy & Hrest). apply IH in Hrest as (ys & Hys & ->).
      exists (y :: ys). split; [now constructor|]. now rewrite <- app_assoc.
    + intros (ys & Hys & ->). inversion Hys as [|? y ? ys' Hy Hys']; subst.
      exists y. split; [exact Hy|]. apply IH. exists ys'. split; [exact Hys'|].
      now rewrite <- app_assoc.
Qed.

Lemma transform_records_Ok (raw : list (gmap string json)) (acc out : list row) :
  transform_records raw acc = Ok out <->
  exists groups,
    Forall2 (fun record group =>
               Forall2 (fun name r => transformed_entry record name = Ok r)
                       antibiotics group) raw groups
    /\ out = acc ++ concat groups.
Proof.
  revert acc out. induction raw as [|record raw IH]; intros acc out; simpl.
  - split.
    + intros [= <-]. exists []. split; [constructor|]. simpl. now rewrite app_nil_r.
    + intros (gs & Hgs & ->). inversion Hgs. simpl. now rewrite app_nil_r.
  - rewrite bind_Ok. unfold transform_record. split.
    + intros (acc' & Hacc & Hrest). apply for_each_Ok in Hacc as (g & Hg & ->).
      apply IH in Hrest as (gs & Hgs & ->).
      exists (g :: gs). split; [now constructor|]. simpl. now rewrite <- app_assoc.
    + intros (gs & Hgs & ->). inversion Hgs as [|? g ? gs' Hg Hgs']; subst.
      exists (acc ++ g). split.
      * apply for_each_Ok. exists g. auto.
      * apply IH. exists gs'. split; [exact Hgs'|]. simpl. now rewrite <- app_assoc.
Qed.

Lemma well_shaped_spec (record : gmap string json) :
  well_shaped record = true <->
  exists b g ge,
    record !! "Bacteria" = Some b /\ record !! "Gram_Staining" = Some g /\
    record !! "Genus" = Some ge /\
    forall name, In name antibiotics -> exists x, record !! name = Some (JNum x).
Proof.
  unfold well_shaped. rewrite !andb_true_iff, forallb_forall. split.
  - intros [[[Hb Hg] Hge] Hn].
    destruct (record !! "Bacteria") as [b|]; [|discriminate].
    destruct (record !! "Gram_Staining") as [g|]; [|discriminate].
    destruct (record !! "Genus") as [ge|]; [|discriminate].
    exists b, g, ge. repeat split. intros name Hin. specialize (Hn name Hin).
    destruct (record !! name) as [[|x| |]|]; try discriminate. now exists x.
  - intros (b & g & ge & -> & -> & -> & Hn). repeat split.
    intros name Hin. destruct (Hn name Hin) as [x ->]. reflexivity.
Qed.

Lemma well_shaped_entries (record : gmap string json) :
  well_shaped record = true <->
  exists group,
    Forall2 (fun name r => transformed_entry record name = Ok r) antibiotics group.
Proof.
  rewrite well_shaped_spec. split.
  - intros (b & g & ge & Hb & Hg & Hge & Hn).
    assert (Hall : forall names, (forall name, In name names -> In name antibiotics) ->
              exists group, Forall2 (fun name r => transformed_entry record name = Ok r)
                              names group).
    { induction names as [|name names IH]; intros Hsub.
      - exists []. constructor.
      - destruct IH as [group Hgroup]; [intros; apply Hsub; now right|].
        destruct (Hn name) as [x Hx]; [apply Hsub; now left|].
        eexists (_ :: group). constructor; [|exact Hgroup].
        apply transformed_entry_Ok. exists b, g, ge, x. repeat split; eauto. }
    apply Hall. auto.
  - intros (group & Hgroup).
    assert (Hp : exists r, transformed_entry record "Penicillin" = Ok r).
    { inversion Hgroup; subst. eauto. }
    destruct Hp as (r & Hr). apply transformed_entry_Ok in Hr
      as (b & g & ge & x & Hb & _ & Hg & Hge & _).
    exists b, g, ge. repeat split; auto.
    intros name Hin.
    apply list_elem_of_In, list_elem_of_lookup in Hin as [i Hi].
    destruct (Forall2_lookup_l _ _ _ i name Hgroup Hi) as (r' & _ & Hr').
    apply transformed_entry_Ok in Hr' as (_ & _ & _ & x' & _ & Hx' & _). eauto.
Qed.

Lemma load_Ok (raw : list (gmap string json)) (rows : list row) :
  load_and_transform_data raw = Ok rows <->
  exists groups,
    Forall2 (fun record group =>
               Forall2 (fun name r => transformed_entry record name = Ok r)
                       antibiotics group) raw groups
    /\ rows = concat groups.
Proof. unfold load_and_transform_data. now rewrite transform_records_Ok. Qed.

Lemma load_total (raw : list (gmap string json)) :
  forallb well_shaped raw = true <-> exists rows, load_and_transform_data raw = Ok rows.
Proof.
  rewrite forallb_forall. split.
  - intros Hall.
    assert (Hg : exists groups,
               Forall2 (fun record group =>
                          Forall2 (fun name r => transformed_entry record name = Ok r)
                                  antibiotics group) raw groups).
    { induction raw as [|record raw IH].
      - exists []. constructor.
      - destruct IH as [groups Hgroups]; [intros; apply Hall; now right|].
        destruct (proj1 (well_shaped_entries record)) as [group Hgroup];
          [apply Hall; now left|].
        exists (group :: groups). now constructor. }
    destruct Hg as [groups Hgroups]. exists (concat groups).
    apply load_Ok. eauto.
  - intros (rows & Hrows) record Hin.
    apply load_Ok in Hrows as (groups & Hgroups & _).
    apply list_elem_of_In, list_elem_of_lookup in Hin as [i Hi].
    destruct (Forall2_lookup_l _ _ _ i record Hgroups Hi) as (group & _ & Hgroup).
    apply well_shaped_entries. eauto.
Qed.

Lemma lookup_concat_uniform {A : Type} (k : nat) (groups : list (list A)) (i j : nat) :
  Forall (fun g => length g = k) groups -> j < k ->
  concat groups !! (i * k + j) = groups !! i ≫= (fun g => g !! j).
Proof.
  intros Hlen Hj. revert i. induction Hlen as [|g groups Hg _ IH]; intros i.
  - reflexivity.
  - destruct i as [|i]; simpl.
    + rewrite lookup_app_l by lia. reflexivity.
    + rewrite lookup_app_r by lia.
      replace (k + i * k + j - length g) with (i * k + j) by lia. apply IH.
Qed.

Lemma length_concat_uniform {A : Type} (k : nat) (groups : list (list A)) :
  Forall (fun g => length g = k) groups -> length (concat groups) = length groups * k.
Proof.
  induction 1 as [|g groups Hg _ IH]; simpl; [reflexivity|].
  rewrite length_app, IH, Hg. reflexivity.
Qed.

Lemma groups_uniform (raw : list (gmap string json)) (groups : list (list row)) :
  Forall2 (fun record group =>
             Forall2 (fun name r => transformed_entry record name = Ok r)
                     antibiotics group) raw groups ->
  Forall (fun g => length g = length antibiotics) groups.
Proof.
  induction 1 as [|record group raw groups Hgroup _ IH]; constructor; [|exact IH].
  symmetry. exact (Forall2_length _ _ _ Hgroup).
Qed.

(** Every row of the normalized table is the entry of one record and one
    antibiotic of the list. *)
Lemma load_row_origin (raw : list (gmap string json)) (rows : list row) (r : row) :
  load_and_transform_data raw = Ok rows -> In r rows ->
  exists record name,
    In record raw /\ In name antibiotics /\ transformed_entry record name = Ok r.
Proof.
  intros Hload Hin. apply load_Ok in Hload as (groups & Hgroups & ->).
  apply in_concat in Hin as (group & Hgroup & Hr).
  apply list_elem_of_In, list_elem_of_lookup in Hgroup as [i Hi].
  destruct (Forall2_lookup_r _ _ _ i group Hgroups Hi) as (record & Hrec & Hentries).
  apply list_elem_of_In, list_elem_of_lookup in Hr as [j Hj].
  destruct (Forall2_lookup_r _ _ _ j r Hentries Hj) as (name & Hname & Hentry).
  exists record, name. repeat split; [| |exact Hentry].
  - apply list_elem_of_In, list_elem_of_lookup. eauto.
  - apply list_elem_of_In, list_elem_of_lookup. eauto.
Qed.

Lemma np_log10_positive (x : float) :
  positive_finite x = true -> np_log10_float x = Log10 x.
Proof.
  unfold positive_finite, np_log10_float. rewrite andb_true_iff. intros [Hpos Hfin].
  destruct (ltb_not_nan _ _ Hpos) as [_ ->].
  destruct (ltb_neq _ _ Hpos) as [_ ->].
  rewrite (ltb_asym _ _ Hpos).
  destruct (ltb_neq _ _ Hfin) as [-> _]. reflexivity.
Qed.



(** C3: a dataset of N records that all have the shape the loader reads
    is normalized into exactly N x K rows, K = 3 being the number of
    antibiotics; the row at position [i * K + j] is the one of record [i]
    and of the [j]-th antibiotic of the fixed list
    Penicillin, Streptomycin, Neomycin. *)
Theorem normalization_cardinality_and_order (raw : list (gmap string json)) :
  forallb well_shaped raw = true ->
  exists rows,
    load_and_transform_data raw = Ok rows /\
    antibiotics = ["Penicillin"; "Streptomycin"; "Neomycin"] /\
    length rows = length raw * length antibiotics /\
    forall i j record name,
      raw !! i = Some record -> antibiotics !! j = Some name ->
      exists r,
        rows !! (i * length antibiotics + j) = Some r /\
        transformed_entry record name = Ok r /\
        antibiotic r = name /\
        record !! "Bacteria" = Some (bacteria r) /\
        record !! name = Some (JNum (mic r)).
Proof.
  intros Hshape. apply load_total in Hshape as [rows Hload]. exists rows.
  split; [exact Hload|]. split; [reflexivity|].
  apply load_Ok in Hload as (groups & Hgroups & ->).
  pose proof (groups_uniform _ _ Hgroups) as Hlen. split.
  - rewrite (length_concat_uniform _ _ Hlen). now rewrite (Forall2_length _ _ _ Hgroups).
  - intros i j record name Hi Hj.
    destruct (Forall2_lookup_l _ _ _ i record Hgroups Hi) as (group & Hgroup & Hentries).
    destruct (Forall2_lookup_l _ _ _ j name Hentries Hj) as (r & Hr & Hentry).
    exists r. split.
    + rewrite (lookup_concat_uniform _ _ _ _ Hlen) by (apply lookup_lt_Some in Hj; exact Hj).
      rewrite Hgroup. exact Hr.
    + split; [exact Hentry|].
      apply transformed_entry_Ok in Hentry as (b & g & ge & x & Hb & Hx & _ & _ & ->).
      simpl. auto.
Qed.

Lemma normalization_cardinality_and_order_witness :
  exists rows,
    load_and_transform_data two_species = Ok rows /\
    antibiotics = ["Penicillin"; "Streptomycin"; "Neomycin"] /\
    length rows = length two_species * length antibiotics /\
    forall i j record name,
      two_species !! i = Some record -> antibiotics !! j = Some name ->
      exists r,
        rows !! (i * length antibiotics + j) = Some r /\
        transformed_entry record name = Ok r /\
        antibiotic r = name /\
        record !! "Bacteria" = Some (bacteria r) /\
        record !! name = Some (JNum (mic r)).
Proof.
  apply (normalization_cardinality_and_order two_species). vm_compute. reflexivity.
Defined.

(** C4: in the table made from a dataset whose records have the shape the
    loader reads, every row has as [log_mic] the value of [np.log10] at
    its own [mic], which for a positive finite [mic] is its base-10
    logarithm in binary64; and its [bacteria], [genus], [gram_staining]
    and [mic] are the fields of one record of the dataset. *)
Theorem rows_copy_fields_and_log (raw : list (gmap string json)) :
  forallb well_shaped raw = true ->
  exists rows,
    load_and_transform_data raw = Ok rows /\
    forall r, In r rows ->
      log_mic r = np_log10_float (mic r) /\
      (positive_finite (mic r) = true -> log_mic r = Log10 (mic r)) /\
      exists record,
        In record raw /\
        record !! "Bacteria" = Some (bacteria r) /\
        record !! "Genus" = Some (genus r) /\
        record !! "Gram_Staining" = Some (gram_staining r) /\
        record !! antibiotic r = Some (JNum (mic r)).
Proof.
  intros Hshape. apply load_total in Hshape as [rows Hload]. exists rows.
  split; [exact Hload|]. intros r Hin.
  destruct (load_row_origin _ _ _ Hload Hin) as (record & name & Hrec & _ & Hentry).
  apply transformed_entry_Ok in Hentry as (b & g & ge & x & Hb & Hx & Hg & Hge & ->).
  simpl. split; [reflexivity|]. split; [apply np_log10_positive|].
  exists record. auto.
Qed.

Lemma rows_copy_fields_and_log_witness :
  exists rows,
    load_and_transform_data two_species = Ok rows /\
    forall r, In r rows ->
      log_mic r = np_log10_float (mic r) /\
      (positive_finite (mic r) = true -> log_mic r = Log10 (mic r)) /\
      exists record,
        In record two_species /\
        record !! "Bacteria" = Some (bacteria r) /\
        record !! "Genus" = Some (genus r) /\
        record !! "Gram_Staining" = Some (gram_staining r) /\
        record !! antibiotic r = Some (JNum (mic r)).
Proof.
  apply (rows_copy_fields_and_log two_species). vm_compute. reflexivity.
Defined.




End Loader.

(** ** Data frames: selection by a mask is filtering *)

Section Frames.

Lemma column_Ok {A : Type} (df : DataFrame) (name : string) (field : row -> A) :
  has_columns df = true ->
  column df name field = Ok (map (fun ir => (fst ir, field (snd ir))) (items df)).
Proof. unfold column. now intros ->. Qed.

Lemma column_Raise {A : Type} (df : DataFrame) (name : string) (field : row -> A) :
  has_columns df = false -> column df name field = Raise (KeyError name).
Proof. unfold column. now intros ->. Qed.

Lemma select_series_eq {A : Type} (eq : A -> string -> bool) (field : row -> A)
    (value : string) (df : DataFrame) :
  select df (series_eq eq (map (fun ir => (fst ir, field (snd ir))) (items df)) value) =
  {| has_columns := has_columns df;
     items := List.filter (fun ir => eq (field (snd ir)) value) (items df) |}.
Proof.
  unfold select, series_eq. f_equal.
  induction (items df) as [|ir its IH]; simpl; [reflexivity|].
  destruct (eq (field (snd ir)) value); simpl; now rewrite IH.
Qed.

Lemma select_group_mask (gram name : string) (df : DataFrame) :
  select df
    (series_and
       (series_eq json_eq_str
          (map (fun ir => (fst ir, gram_staining (snd ir))) (items df)) gram)
       (series_eq String.eqb
          (map (fun ir => (fst ir, antibiotic (snd ir))) (items df)) name)) =
  {| has_columns := has_columns df;
     items := List.filter (fun ir => in_group gram name (snd ir)) (items df) |}.
Proof.
  unfold select, series_and, series_eq, in_group. f_equal.
  induction (items df) as [|ir its IH]; simpl; [reflexivity|].
  destruct (json_eq_str (gram_staining (snd ir)) gram && (antibiotic (snd ir) =? name)%string);
    simpl; now rewrite IH.
Qed.

Lemma filter_filter {A : Type} (p q : A -> bool) (l : list A) :
  List.filter p (List.filter q l) = List.filter (fun x => q x && p x) l.
Proof.
  induction l as [|x l IH]; simpl; [reflexivity|].
  destruct (q x); simpl; [destruct (p x)|]; now rewrite IH.
Qed.

Lemma filter_sublist {A : Type} (p : A -> bool) (l : list A) :
  List.filter p l `sublist_of` l.
Proof.
  induction l as [|x l IH]; simpl; [constructor|].
  destruct (p x); now constructor.
Qed.

Lemma map_snd_filter (p : row -> bool) (its : list (nat * row)) :
  map snd (List.filter (fun ir => p (snd ir)) its) = List.filter p (map snd its).
Proof.
  induction its as [|ir its IH]; simpl; [reflexivity|].
  destruct (p (snd ir)); simpl; now rewrite IH.
Qed.

Lemma map_snd_enumerate {A : Type} (k : nat) (l : list A) :
  map snd (combine (seq k (length l)) l) = l.
Proof.
  revert k. induction l as [|x l IH]; intros k; simpl; [reflexivity|]. now rewrite IH.
Qed.

Lemma rows_of_pd_DataFrame (rows : list row) : rows_of (pd_DataFrame rows) = rows.
Proof. apply map_snd_enumerate. Qed.

Lemma has_columns_pd_DataFrame (rows : list row) :
  has_columns (pd_DataFrame rows) = true <-> rows <> [].
Proof. destruct rows; simpl; split; congruence. Qed.

Lemma mean_column (its : list (nat * row)) :
  mean (map (fun ir => (fst ir, mic (snd ir))) its) = mean_values (map mic (map snd its)).
Proof. unfold mean. now rewrite !map_map. Qed.

(** The mean of a group of a frame that has its columns. *)
Lemma group_mean_frame (df : DataFrame) (gram name : string) :
  has_columns df = true ->
  group_mean df gram name = Ok (mean_values (group_mics gram name (rows_of df))).
Proof.
  intros Hcols. unfold group_mean, group_mask.
  rewrite !column_Ok by exact Hcols. simpl.
  rewrite select_group_mask. rewrite column_Ok by exact Hcols. simpl.
  rewrite mean_column, map_snd_filter. reflexivity.
Qed.

Lemma group_mean_pd (rows : list row) (gram name : string) :
  rows <> [] ->
  group_mean (pd_DataFrame rows) gram name = Ok (mean_values (group_mics gram name rows)).
Proof.
  intros Hne. rewrite group_mean_frame by now apply has_columns_pd_DataFrame.
  now rewrite rows_of_pd_DataFrame.
Qed.

Lemma group_mean_empty (gram name : string) :
  group_mean (pd_DataFrame []) gram name = Raise (KeyError "gram_staining").
Proof. reflexivity. Qed.



End Frames.

Lemma filter_by_antibiotic_then_gram (gram name : string) (its : list (nat * row)) :
  List.filter (fun ir => json_eq_str (gram_staining (snd ir)) gram)
    (List.filter (fun ir => String.eqb (antibiotic (snd ir)) name) its) =
  List.filter (fun ir => in_group gram name (snd ir)) its.
Proof.
  rewrite filter_filter. apply List.filter_ext. intros ir. unfold in_group.
  apply andb_comm.
Qed.

(** One pass of the summary loop on a frame that has its columns. *)
Lemma summary_for_frame (df : DataFrame) (name : string) :
  has_columns df = true ->
  summary_for df name =
  Ok {| s_antibiotic := name;
        s_pos_avg := mean_values (group_mics "positive" name (rows_of df));
        s_neg_avg := mean_values (group_mics "negative" name (rows_of df));
        s_ratio := (mean_values (group_mics "negative" name (rows_of df)) /
                    mean_values (group_mics "positive" name (rows_of df)))%float |}.
Proof.
  intros Hcols. unfold summary_for.
  rewrite column_Ok by exact Hcols. simpl.
  rewrite select_series_eq.
  rewrite !column_Ok by exact Hcols. simpl.
  rewrite !select_series_eq. simpl.
  rewrite !column_Ok by exact Hcols. simpl.
  rewrite !filter_by_antibiotic_then_gram, !mean_column, !map_snd_filter.
  reflexivity.
Qed.

Lemma summary_for_empty (name : string) :
  summary_for (pd_DataFrame []) name = Raise (KeyError "antibiotic").
Proof. reflexivity. Qed.

Lemma effectiveness_ratio_frame (df : DataFrame) :
  has_columns df = true ->
  effectiveness_ratio df =
  Ok (mean_values (group_mics "negative" "Penicillin" (rows_of df)) /
      mean_values (group_mics "positive" "Penicillin" (rows_of df)))%float.
Proof.
  intros Hcols. unfold effectiveness_ratio, gram_pos_pen, gram_neg_pen.
  rewrite !group_mean_frame by exact Hcols. reflexivity.
Qed.

(** C9: on every table the headline ratio of lines 44-46 and the ratio
    that the summary loop computes for Penicillin are the same number:
    on a table with at least one row both computations return, the first
    entry of the summary is the one of Penicillin and its ratio (and its
    two means) are the headline values; on the empty table, whose frame
    has no columns, both raise a [KeyError]. *)
Theorem headline_ratio_is_summary_ratio (rows : list row) :
  (rows <> [] ->
   exists pos neg ratio s rest,
     gram_pos_pen (pd_DataFrame rows) = Ok pos /\
     gram_neg_pen (pd_DataFrame rows) = Ok neg /\
     effectiveness_ratio (pd_DataFrame rows) = Ok ratio /\
     summary_stats (pd_DataFrame rows) = Ok (s :: rest) /\
     s_antibiotic s = "Penicillin" /\
     s_pos_avg s = pos /\ s_neg_avg s = neg /\ s_ratio s = ratio) /\
  (rows = [] ->
   effectiveness_ratio (pd_DataFrame rows) = Raise (KeyError "gram_staining") /\
   summary_stats (pd_DataFrame rows) = Raise (KeyError "antibiotic")).
Proof.
  split.
  - intros Hne. apply has_columns_pd_DataFrame in Hne as Hcols.
    do 5 eexists.
    split; [unfold gram_pos_pen; now apply group_mean_frame|].
    split; [unfold gram_neg_pen; now apply group_mean_frame|].
    split; [now apply effectiveness_ratio_frame|].
    split.
    + unfold summary_stats, antibiotics. simpl.
      rewrite !summary_for_frame by exact Hcols. simpl. reflexivity.
    + simpl. auto.
  - intros ->. split; reflexivity.
Qed.

(** ** Group means and the effectiveness ratio *)

Section Means.

(** The two-record scenario of the specification: the group means are
    0.01 and 100, and the ratio is 10000. *)
Example two_species_statistics :
  exists rows,
    load_and_transform_data two_species = Ok rows /\
    gram_pos_pen (pd_DataFrame rows) = Ok 0.01%float /\
    gram_neg_pen (pd_DataFrame rows) = Ok 100%float /\
    effectiveness_ratio (pd_DataFrame rows) = Ok 10000%float.
Proof. eexists. split; [vm_compute; reflexivity|]. repeat split; vm_compute; reflexivity. Qed.

(** C2, as the code has it: on a table with at least one row, the mean of
    a group that no row belongs to is NaN; no exception is raised. *)
Theorem empty_group_mean_is_nan (rows : list row) (gram name : string) :
  rows <> [] ->
  (forall r, In r rows -> in_group gram name r = false) ->
  group_mean (pd_DataFrame rows) gram name = Ok nan.
Proof.
  intros Hne Hnone. rewrite group_mean_pd by exact Hne. f_equal.
  unfold group_mics.
  replace (List.filter (in_group gram name) rows) with (@nil row); [reflexivity|].
  symmetry. induction rows as [|r rows IH]; [reflexivity|]. simpl.
  rewrite (Hnone r) by now left. destruct rows as [|r' rows']; [reflexivity|].
  apply IH; [discriminate|]. intros r0 Hr0. apply Hnone. now right.
Qed.

Lemma empty_group_mean_is_nan_witness :
  group_mean (pd_DataFrame negative_only) "positive" "Streptomycin" = Ok nan.
Proof.
  apply (empty_group_mean_is_nan negative_only "positive" "Streptomycin").
  - discriminate.
  - intros r [<-|[<-|[]]]; reflexivity.
Defined.

(** C2 fails as stated: no row of the table is a gram-positive Penicillin
    row, and the group mean returns NaN instead of failing. *)
Lemma positive_mean_of_negative_only :
  List.filter (in_group "positive" "Penicillin") negative_only = [] /\
  gram_pos_pen (pd_DataFrame negative_only) = Ok nan.
Proof. split; vm_compute; reflexivity. Qed.

(** C8, as the code has it: the ratio depends on the rows only through
    the [mic] values of the two Penicillin groups, each in row order; a
    permutation of the rows that keeps these two sequences keeps the
    ratio. *)
Theorem ratio_invariant_when_group_order_kept (rows rows' : list row) :
  rows ≡ₚ rows' ->
  group_mics "positive" "Penicillin" rows = group_mics "positive" "Penicillin" rows' ->
  group_mics "negative" "Penicillin" rows = group_mics "negative" "Penicillin" rows' ->
  effectiveness_ratio (pd_DataFrame rows) = effectiveness_ratio (pd_DataFrame rows').
Proof.
  intros Hperm Hpos Hneg. destruct rows as [|r rows].
  - apply Permutation_nil_l in Hperm as ->. reflexivity.
  - assert (Hne' : rows' <> []).
    { intros ->. apply Permutation_nil_r in Hperm. discriminate. }
    rewrite !effectiveness_ratio_frame by now apply has_columns_pd_DataFrame.
    rewrite !rows_of_pd_DataFrame, Hpos, Hneg. reflexivity.
Qed.

Lemma ratio_invariant_when_group_order_kept_witness :
  effectiveness_ratio (pd_DataFrame rising) =
  effectiveness_ratio (pd_DataFrame rising_positive_last).
Proof.
  apply (ratio_invariant_when_group_order_kept rising rising_positive_last).
  - unfold rising, rising_positive_last.
    apply Permutation_cons_app with (l1 := [_; _; _]) (l2 := []). reflexivity.
  - reflexivity.
  - reflexivity.
Defined.

(** C8 fails as stated: the two tables hold the same rows, both groups
    have rows in each, and the ratios differ, because the binary64 sum of
    the gram-negative values depends on the order they are added in:
    (0.1 + 0.2) + 0.3 is not (0.3 + 0.2) + 0.1. *)
Lemma ratio_changes_with_row_order :
  rising ≡ₚ falling /\
  group_mics "positive" "Penicillin" rising = [1%float] /\
  group_mics "negative" "Penicillin" rising = [0.1; 0.2; 0.3]%float /\
  group_mics "positive" "Penicillin" falling = [1%float] /\
  group_mics "negative" "Penicillin" falling = [0.3; 0.2; 0.1]%float /\
  effectiveness_ratio (pd_DataFrame rising) = Ok 0.20000000000000004%float /\
  effectiveness_ratio (pd_DataFrame falling) = Ok 0.19999999999999998%float /\
  (0.20000000000000004 =? 0.19999999999999998)%float = false.
Proof.
  split.
  - unfold rising, falling. apply perm_skip.
    transitivity [sample_row "C" "negative" "Penicillin" 0.2;
                  sample_row "D" "negative" "Penicillin" 0.3;
                  sample_row "B" "negative" "Penicillin" 0.1].
    + apply Permutation_cons_append with (l := [_; _]).
    + apply perm_swap.
  - repeat split; vm_compute; reflexivity.
Qed.

End Means.

(** ** Records with an unrecognized gram staining *)

Section Unvalidated.

Lemma group_mics_app (gram name : string) (l1 l2 : list row) :
  group_mics gram name (l1 ++ l2) = group_mics gram name l1 ++ group_mics gram name l2.
Proof. unfold group_mics. now rewrite List.filter_app, map_app. Qed.

Lemma group_mics_none (gram name : string) (l : list row) :
  (forall r, In r l -> in_group gram name r = false) -> group_mics gram name l = [].
Proof.
  intros Hnone. unfold group_mics. induction l as [|r l IH]; [reflexivity|]. simpl.
  rewrite (Hnone r) by now left. apply IH. intros r0 Hr0. apply Hnone. now right.
Qed.

(** C10: the loader copies [Gram_Staining] without looking at it.  A
    dataset whose records have the shape the loader reads is loaded also
    when one record carries a gram staining [v] that is neither
    ['positive'] nor ['negative']; the table has a row of that record for
    each antibiotic, with [gram_staining] equal to [v]; and the two
    Penicillin group means are the means over the rows of the other
    records alone. *)
Theorem gram_staining_not_validated (pre post : list (gmap string json))
    (record : gmap string json) (v : json) :
  forallb well_shaped (pre ++ record :: post) = true ->
  record !! "Gram_Staining" = Some v ->
  json_eq_str v "positive" = false ->
  json_eq_str v "negative" = false ->
  exists rows others,
    load_and_transform_data (pre ++ record :: post) = Ok rows /\
    load_and_transform_data (pre ++ post) = Ok others /\
    (forall name, In name antibiotics ->
       exists r, In r rows /\ antibiotic r = name /\ gram_staining r = v /\
                 record !! "Bacteria" = Some (bacteria r) /\
                 record !! name = Some (JNum (mic r))) /\
    gram_pos_pen (pd_DataFrame rows) =
      Ok (mean_values (group_mics "positive" "Penicillin" others)) /\
    gram_neg_pen (pd_DataFrame rows) =
      Ok (mean_values (group_mics "negative" "Penicillin" others)).
Proof.
  intros Hshape Hv Hpos Hneg.
  apply load_total in Hshape as [rows Hload]. exists rows.
  pose proof Hload as Hload'.
  apply load_Ok in Hload' as (groups & Hgroups & ->).
  apply Forall2_app_inv_l in Hgroups as (gpre & grest & Hpre & Hrest & ->).
  inversion Hrest as [|? g ? gpost Hg Hpost]; subst.
  exists (concat (gpre ++ gpost)).
  assert (Hgram : forall r, In r g -> gram_staining r = v).
  { intros r Hr. apply list_elem_of_In, list_elem_of_lookup in Hr as [j Hj].
    destruct (Forall2_lookup_r _ _ _ j r Hg Hj) as (name & _ & Hentry).
    apply transformed_entry_Ok in Hentry as (b & g0 & ge & x & _ & _ & Hg0 & _ & ->).
    simpl. congruence. }
  assert (Hout : forall gram, json_eq_str v gram = false ->
            group_mics gram "Penicillin" (concat (gpre ++ g :: gpost)) =
            group_mics gram "Penicillin" (concat (gpre ++ gpost))).
  { intros gram Hgr. rewrite !concat_app. simpl. rewrite !group_mics_app.
    rewrite (group_mics_none gram "Penicillin" g); [reflexivity|].
    intros r Hr. unfold in_group. now rewrite (Hgram r Hr), Hgr. }
  assert (Hne : concat (gpre ++ g :: gpost) <> []).
  { inversion Hg as [|? r0 ? ? _ _]; subst. rewrite concat_app. simpl.
    intros E. apply app_eq_nil in E as [_ E]. discriminate. }
  split; [exact Hload|]. split.
  { apply load_Ok. exists (gpre ++ gpost). split; [|reflexivity].
    now apply Forall2_app. }
  split.
  { intros name Hname.
    apply list_elem_of_In, list_elem_of_lookup in Hname as [j Hj].
    destruct (Forall2_lookup_l _ _ _ j name Hg Hj) as (r & Hr & Hentry).
    exists r. split.
    - apply in_concat. exists g. split.
      + apply in_or_app. right. now left.
      + apply list_elem_of_In, list_elem_of_lookup. eauto.
    - split.
      + apply transformed_entry_Ok in Hentry as (? & ? & ? & ? & _ & _ & _ & _ & ->).
        reflexivity.
      + split; [apply Hgram; apply list_elem_of_In, list_elem_of_lookup; eauto|].
        apply transformed_entry_Ok in Hentry as (? & ? & ? & ? & Hb & Hx & _ & _ & ->).
        simpl. auto. }
  unfold gram_pos_pen, gram_neg_pen. rewrite !group_mean_pd by exact Hne.
  rewrite (Hout "positive" Hpos), (Hout "negative" Hneg). auto.
Qed.

Lemma gram_staining_not_validated_witness :
  exists rows others,
    load_and_transform_data ([raw_record "S. pyogenes" "Streptococcus" "positive" 0.01 14 10]
                             ++ unstained
                             :: [raw_record "E. coli" "other" "negative" 100 0.4 0.1])
      = Ok rows /\
    load_and_transform_data two_species = Ok others /\
    (forall name, In name antibiotics ->
       exists r, In r rows /\ antibiotic r = name /\ gram_staining r = JStr "variable" /\
                 unstained !! "Bacteria" = Some (bacteria r) /\
                 unstained !! name = Some (JNum (mic r))) /\
    gram_pos_pen (pd_DataFrame rows) =
      Ok (mean_values (group_mics "positive" "Penicillin" others)) /\
    gram_neg_pen (pd_DataFrame rows) =
      Ok (mean_values (group_mics "negative" "Penicillin" others)).
Proof.
  apply (gram_staining_not_validated
           [raw_record "S. pyogenes" "Streptococcus" "positive" 0.01 14 10]
           [raw_record "E. coli" "other" "negative" 100 0.4 0.1]
           unstained (JStr "variable")); vm_compute; reflexivity.
Defined.

End Unvalidated.

(** ** Extrema *)

Section Labels.

Lemma increasing_weaken (k k' : nat) (its : list (nat * row)) :
  increasing k its -> k' <= k -> increasing k' its.
Proof. destruct its as [|ir its]; simpl; [auto|]. intros [H1 H2] Hle. split; [lia|exact H2]. Qed.

Lemma increasing_enumerate (k : nat) (rows : list row) :
  increasing k (combine (seq k (length rows)) rows).
Proof.
  revert k. induction rows as [|r rows IH]; intros k; simpl; [exact I|].
  split; [lia|apply IH].
Qed.

Lemma increasing_filter (p : nat * row -> bool) (k : nat) (its : list (nat * row)) :
  increasing k its -> increasing k (List.filter p its).
Proof.
  revert k. induction its as [|ir its IH]; intros k; simpl; [auto|].
  intros [H1 H2]. destruct (p ir); simpl.
  - split; [exact H1|apply IH, H2].
  - apply IH. apply (increasing_weaken (S (fst ir))); [exact H2|lia].
Qed.

Lemma increasing_lower_bound (k : nat) (its : list (nat * row)) :
  increasing k its -> Forall (fun x => k <= fst x) its.
Proof.
  revert k. induction its as [|ir its IH]; intros k; simpl; [constructor|].
  intros [H1 H2]. constructor; [exact H1|].
  apply IH. apply (increasing_weaken (S (fst ir))); [exact H2|lia].
Qed.

Lemma increasing_split (k i : nat) (r : row) (pre post : list (nat * row)) :
  increasing k (pre ++ (i, r) :: post) ->
  Forall (fun x => fst x < i) pre /\ Forall (fun x => i < fst x) post.
Proof.
  revert k. induction pre as [|ir pre IH]; intros k; simpl.
  - intros [_ H]. split; [constructor|]. apply (increasing_lower_bound _ _ H).
  - intros [H1 H2]. destruct (IH _ H2) as [Hpre Hpost]. split; [|exact Hpost].
    constructor; [|exact Hpre].
    apply increasing_lower_bound in H2. apply Forall_app in H2 as [_ H2].
    inversion H2; subst. simpl in *. lia.
Qed.

Lemma loc_items_split (i : nat) (r : row) (pre post : list (nat * row)) :
  Forall (fun x => fst x < i) pre -> loc_items (pre ++ (i, r) :: post) i = Ok r.
Proof.
  induction 1 as [|ir pre Hlt _ IH]; simpl.
  - now rewrite Nat.eqb_refl.
  - destruct (Nat.eqb_spec (fst ir) i); [lia|exact IH].
Qed.

Lemma In_enumerate (k i : nat) (r : row) (rows : list row) :
  In (i, r) (combine (seq k (length rows)) rows) <-> k <= i /\ rows !! (i - k) = Some r.
Proof.
  revert k. induction rows as [|r0 rows IH]; intros k; simpl.
  - split; [intros []|intros [_ [=]]].
  - rewrite IH. split.
    + intros [[= <- <-]|[Hle Hr]].
      * split; [lia|]. now rewrite Nat.sub_diag.
      * split; [lia|]. replace (i - k) with (S (i - S k)) by lia. exact Hr.
    + intros [Hle Hr]. destruct (decide (i = k)) as [->|Hne].
      * rewrite Nat.sub_diag in Hr. injection Hr as <-. now left.
      * right. split; [lia|]. replace (i - k) with (S (i - S k)) in Hr by lia. exact Hr.
Qed.

End Labels.

Section FirstBest.

Variable better : float -> float -> bool.

Hypothesis better_asym : forall a b, better a b = true -> better b a = false.

Hypothesis better_than_not_worse :
  forall a b x,
    is_nan a = false -> is_nan b = false -> is_nan x = false ->
    better a b = true -> better x b = false -> better a x = true.

Lemma better_trans (a b x : float) :
  is_nan a = false -> is_nan b = false -> is_nan x = false ->
  better a b = true -> better b x = true -> better a x = true.
Proof.
  intros Ha Hb Hx Hab Hbx. apply (better_than_not_worse a b x); auto.
Qed.

(** The scan returns an element of the series; every element before it
    is strictly worse, and no element after it is better. *)
Lemma first_best_split (best : nat * float) (s : Series float) :
  Forall (fun iv => is_nan (snd iv) = false) (best :: s) ->
  exists pre post,
    best :: s = pre ++ first_best better best s :: post /\
    Forall (fun x => better (snd (first_best better best s)) (snd x) = true) pre /\
    Forall (fun x => better (snd x) (snd (first_best better best s)) = false) post.
Proof.
  revert best. induction s as [|iv s IH]; intros best Hgood; simpl.
  - exists [], []. repeat split; constructor.
  - inversion Hgood as [|? ? Hbest Hrest]; subst.
    inversion Hrest as [|? ? Hiv Hs]; subst.
    destruct (better (snd iv) (snd best)) eqn:Hcmp.
    + destruct (IH iv) as (pre & post & Heq & Hpre & Hpost); [now constructor|].
      set (res := first_best better iv s) in *.
      assert (Hres : is_nan (snd res) = false).
      { assert (Hin : In res (iv :: s)) by (rewrite Heq; apply in_elt).
        rewrite Forall_forall in Hrest. apply Hrest, list_elem_of_In, Hin. }
      exists (best :: pre), post. split; [now rewrite Heq|]. split; [|exact Hpost].
      constructor; [|exact Hpre].
      destruct pre as [|x pre].
      * injection Heq as <- _. exact Hcmp.
      * injection Heq as <- _. apply Forall_cons in Hpre as [Hx _].
        apply (better_trans _ (snd iv)); auto.
    + destruct (IH best) as (pre & post & Heq & Hpre & Hpost); [now constructor|].
      set (res := first_best better best s) in *.
      assert (Hres : is_nan (snd res) = false).
      { assert (Hin : In res (best :: s)) by (rewrite Heq; apply in_elt).
        assert (Hall : Forall (fun iv => is_nan (snd iv) = false) (best :: s))
          by now constructor.
        rewrite Forall_forall in Hall. apply Hall, list_elem_of_In, Hin. }
      destruct pre as [|x pre].
      * injection Heq as Hb Hpost'. exists [], (iv :: post).
        split; [simpl; now rewrite <- Hb, Hpost'|]. split; [constructor|].
        constructor; [now rewrite <- Hb|exact Hpost].
      * injection Heq as Hb Hs'. subst x. apply Forall_cons in Hpre as [Hx Hpre'].
        exists (best :: iv :: pre), post.
        split; [simpl; now rewrite Hs'|]. split; [|exact Hpost].
        constructor; [exact Hx|]. constructor; [|exact Hpre'].
        apply (better_than_not_worse _ (snd best)); auto.
Qed.

Lemma fillna_id (worst_value : float) (s : Series float) :
  Forall (fun iv => is_nan (snd iv) = false) s -> fillna worst_value s = s.
Proof.
  induction 1 as [|iv s Hiv _ IH]; [reflexivity|].
  unfold fillna in *. simpl. rewrite IH, Hiv. now destruct iv.
Qed.

Lemma idx_best_split (worst_value : float) (s : Series float) :
  s <> [] ->
  Forall (fun iv => is_nan (snd iv) = false) s ->
  exists pre i v post,
    idx_best better worst_value s = Ok i /\
    s = pre ++ (i, v) :: post /\
    Forall (fun x => better v (snd x) = true) pre /\
    Forall (fun x => better (snd x) v = false) post.
Proof.
  intros Hne Hgood. unfold idx_best. rewrite (fillna_id _ _ Hgood).
  destruct s as [|iv s]; [congruence|].
  inversion Hgood as [|? ? Hiv _]; subst. simpl. rewrite Hiv. simpl.
  destruct (first_best_split iv s Hgood) as (pre & post & Heq & Hpre & Hpost).
  destruct (first_best better iv s) as [i v] eqn:E. simpl in *.
  exists pre, i, v, post. auto.
Qed.

End FirstBest.

Section Extremum.

Variable better : float -> float -> bool.
Variable worst_value : float.

Hypothesis better_asym : forall a b, better a b = true -> better b a = false.

Hypothesis better_than_not_worse :
  forall a b x,
    is_nan a = false -> is_nan b = false -> is_nan x = false ->
    better a b = true -> better x b = false -> better a x = true.

(** The row that the extremum expression of lines 272 and 287 selects,
    when the antibiotic has rows and none of them has a missing [mic]:
    it is a row of the antibiotic, at some position [i] of the table;
    every row of the antibiotic before it is strictly worse, and none
    after it is better. *)
Lemma extremum_row_split (rows : list row) (name : string) :
  (exists r, In r rows /\ antibiotic r = name) ->
  (forall r, In r rows -> antibiotic r = name -> is_nan (mic r) = false) ->
  exists i r,
    extremum_row (idx_best better worst_value) (pd_DataFrame rows) name = Ok r /\
    rows !! i = Some r /\ antibiotic r = name /\
    (forall j r', rows !! j = Some r' -> antibiotic r' = name -> j < i ->
                  better (mic r) (mic r') = true) /\
    (forall j r', rows !! j = Some r' -> antibiotic r' = name -> i < j ->
                  better (mic r') (mic r) = false).
Proof.
  intros (r0 & Hr0 & Hname0) Hgood.
  assert (Hcols : has_columns (pd_DataFrame rows) = true).
  { apply has_columns_pd_DataFrame. intros ->. destruct Hr0. }
  unfold extremum_row. rewrite !column_Ok by exact Hcols. simpl.
  rewrite !select_series_eq. rewrite column_Ok by exact Hcols. simpl.
  set (sub := List.filter (fun ir => String.eqb (antibiotic (snd ir)) name)
                (combine (seq 0 (length rows)) rows)).
  assert (Hsub : forall j r', In (j, r') sub <-> rows !! j = Some r' /\ antibiotic r' = name).
  { intros j r'. unfold sub. rewrite filter_In, In_enumerate. simpl.
    rewrite Nat.sub_0_r, String.eqb_eq. split; [intros [[_ H1] H2]|intros [H1 H2]]; auto with lia. }
  assert (Hinc : increasing 0 sub) by apply increasing_filter, increasing_enumerate.
  assert (Hne : map (fun ir : nat * row => (fst ir, mic (snd ir))) sub <> []).
  { apply list_elem_of_In, list_elem_of_lookup in Hr0 as [j Hj].
    assert (Hin : In (j, r0) sub) by now apply Hsub.
    destruct sub; [destruct Hin|discriminate]. }
  assert (Hnan : Forall (fun iv : nat * float => is_nan (snd iv) = false)
                   (map (fun ir : nat * row => (fst ir, mic (snd ir))) sub)).
  { apply Forall_forall. intros iv Hiv. apply list_elem_of_In, in_map_iff in Hiv
      as ([j r'] & <- & Hin). simpl. apply Hsub in Hin as [Hj Hn].
    apply Hgood; [|exact Hn]. apply list_elem_of_In, list_elem_of_lookup. eauto. }
  destruct (idx_best_split better better_asym better_than_not_worse worst_value _ Hne Hnan)
    as (pre & i & v & post & Hidx & Hsplit & Hpre & Hpost).
  rewrite Hidx. simpl.
  apply map_eq_app in Hsplit as (pre' & rest & Hsub' & <- & Hrest).
  apply map_eq_cons in Hrest as ([i' r] & post' & -> & [= -> <-] & <-).
  simpl in *. fold sub. rewrite Hsub' in Hinc.
  destruct (increasing_split _ _ _ _ _ Hinc) as [Hlt Hgt].
  exists i, r. unfold loc. simpl. fold sub. rewrite Hsub'.
  split; [now apply loc_items_split|].
  assert (Hir : rows !! i = Some r /\ antibiotic r = name).
  { apply Hsub. rewrite Hsub'. apply in_elt. }
  destruct Hir as [Hi Hn]. split; [exact Hi|]. split; [exact Hn|].
  rewrite Forall_forall in Hlt, Hgt.
  rewrite Forall_map, Forall_forall in Hpre, Hpost.
  split; intros j r' Hj Hn' Hord.
  - assert (Hin : In (j, r') sub) by now apply Hsub.
    rewrite Hsub' in Hin. apply in_app_or in Hin as [Hin|[[= -> ->]|Hin]].
    + apply (Hpre (j, r')), list_elem_of_In, Hin.
    + lia.
    + apply list_elem_of_In, Hgt in Hin. simpl in Hin. lia.
  - assert (Hin : In (j, r') sub) by now apply Hsub.
    rewrite Hsub' in Hin. apply in_app_or in Hin as [Hin|[[= -> ->]|Hin]].
    + apply list_elem_of_In, Hlt in Hin. simpl in Hin. lia.
    + lia.
    + apply (Hpost (j, r')), list_elem_of_In, Hin.
Qed.

End Extremum.

Section MostAndLeast.

Lemma ltb_better_than_not_worse (a b x : float) :
  is_nan a = false -> is_nan b = false -> is_nan x = false ->
  (a <? b)%float = true -> (x <? b)%float = false -> (a <? x)%float = true.
Proof.
  intros _ Hb Hx Hab Hxb. apply (ltb_leb_trans a b x Hab).
  now apply ltb_false_leb.
Qed.

Lemma gtb_better_than_not_worse (a b x : float) :
  is_nan a = false -> is_nan b = false -> is_nan x = false ->
  (b <? a)%float = true -> (b <? x)%float = false -> (x <? a)%float = true.
Proof.
  intros _ Hb Hx Hba Hbx. apply (leb_ltb_trans x b a); [|exact Hba].
  now apply ltb_false_leb.
Qed.

Lemma best_split (rows : list row) (name : string) :
  (exists r, In r rows /\ antibiotic r = name) ->
  (forall r, In r rows -> antibiotic r = name -> is_nan (mic r) = false) ->
  exists i r,
    best (pd_DataFrame rows) name = Ok r /\
    rows !! i = Some r /\ antibiotic r = name /\
    (forall j r', rows !! j = Some r' -> antibiotic r' = name -> j < i ->
                  (mic r <? mic r')%float = true) /\
    (forall j r', rows !! j = Some r' -> antibiotic r' = name -> i < j ->
                  (mic r' <? mic r)%float = false).
Proof.
  apply (extremum_row_split PrimFloat.ltb infinity ltb_asym ltb_better_than_not_worse).
Qed.

Lemma worst_split (rows : list row) (name : string) :
  (exists r, In r rows /\ antibiotic r = name) ->
  (forall r, In r rows -> antibiotic r = name -> is_nan (mic r) = false) ->
  exists i r,
    worst (pd_DataFrame rows) name = Ok r /\
    rows !! i = Some r /\ antibiotic r = name /\
    (forall j r', rows !! j = Some r' -> antibiotic r' = name -> j < i ->
                  (mic r' <? mic r)%float = true) /\
    (forall j r', rows !! j = Some r' -> antibiotic r' = name -> i < j ->
                  (mic r <? mic r')%float = false).
Proof.
  apply (extremum_row_split (fun x y => PrimFloat.ltb y x) neg_infinity).
  - intros a b. apply ltb_asym.
  - apply gtb_better_than_not_worse.
Qed.

(** C5: when an antibiotic has at least one row, and the [mic] of its
    rows are numbers (none is NaN), the row selected as most effective
    has a [mic] that is at most the [mic] of every row of the antibiotic,
    and the row selected as least effective one that is at least the
    [mic] of every such row; both are rows of that antibiotic. *)
Theorem extremum_bounds (rows : list row) (name : string) :
  (exists r, In r rows /\ antibiotic r = name) ->
  (forall r, In r rows -> antibiotic r = name -> is_nan (mic r) = false) ->
  exists lo hi,
    best (pd_DataFrame rows) name = Ok lo /\
    worst (pd_DataFrame rows) name = Ok hi /\
    In lo rows /\ antibiotic lo = name /\
    In hi rows /\ antibiotic hi = name /\
    forall r, In r rows -> antibiotic r = name ->
      (mic lo <=? mic r)%float = true /\ (mic r <=? mic hi)%float = true.
Proof.
  intros Hex Hgood.
  destruct (best_split rows name Hex Hgood) as (i & lo & Hbest & Hi & Hlo & Hbefore & Hafter).
  destruct (worst_split rows name Hex Hgood) as (k & hi & Hworst & Hk & Hhi & Hbefore' & Hafter').
  assert (Hinlo : In lo rows) by (apply list_elem_of_In, list_elem_of_lookup; eauto).
  assert (Hinhi : In hi rows) by (apply list_elem_of_In, list_elem_of_lookup; eauto).
  exists lo, hi. repeat (split; [assumption|]).
  intros r Hr Hname. pose proof (Hgood r Hr Hname) as Hnan.
  apply list_elem_of_In, list_elem_of_lookup in Hr as [j Hj]. split.
  - destruct (Nat.lt_trichotomy j i) as [Hlt|[->|Hgt]].
    + apply ltb_leb. now apply (Hbefore j).
    + assert (r = lo) as -> by congruence. now apply leb_refl.
    + apply ltb_false_leb; auto. now apply (Hafter j).
  - destruct (Nat.lt_trichotomy j k) as [Hlt|[->|Hgt]].
    + apply ltb_leb. now apply (Hbefore' j).
    + assert (r = hi) as -> by congruence. now apply leb_refl.
    + apply ltb_false_leb; auto. now apply (Hafter' j).
Qed.

Lemma extremum_bounds_witness :
  exists lo hi,
    best (pd_DataFrame tied_rows) "Penicillin" = Ok lo /\
    worst (pd_DataFrame tied_rows) "Penicillin" = Ok hi /\
    In lo tied_rows /\ antibiotic lo = "Penicillin" /\
    In hi tied_rows /\ antibiotic hi = "Penicillin" /\
    forall r, In r tied_rows -> antibiotic r = "Penicillin" ->
      (mic lo <=? mic r)%float = true /\ (mic r <=? mic hi)%float = true.
Proof.
  apply (extremum_bounds tied_rows "Penicillin").
  - exists (sample_row "A" "positive" "Penicillin" 1). split; [now left|reflexivity].
  - intros r [<-|[<-|[<-|[<-|[<-|[]]]]]] _; reflexivity.
Defined.

(** C6: ties are broken by position.  Among the rows of an antibiotic,
    none with a NaN [mic], a row whose [mic] is the lowest and that no
    earlier row of the antibiotic ties with is the row selected as most
    effective; likewise for the highest [mic] and the row selected as
    least effective. *)
Theorem first_of_tied_rows_is_selected (rows : list row) (name : string) :
  (forall r, In r rows -> antibiotic r = name -> is_nan (mic r) = false) ->
  (forall i r0,
     rows !! i = Some r0 -> antibiotic r0 = name ->
     (forall r, In r rows -> antibiotic r = name -> (mic r0 <=? mic r)%float = true) ->
     (forall j r, j < i -> rows !! j = Some r -> antibiotic r = name ->
                  (mic r =? mic r0)%float = false) ->
     best (pd_DataFrame rows) name = Ok r0) /\
  (forall i r0,
     rows !! i = Some r0 -> antibiotic r0 = name ->
     (forall r, In r rows -> antibiotic r = name -> (mic r <=? mic r0)%float = true) ->
     (forall j r, j < i -> rows !! j = Some r -> antibiotic r = name ->
                  (mic r =? mic r0)%float = false) ->
     worst (pd_DataFrame rows) name = Ok r0).
Proof.
  intros Hgood. split; intros i r0 Hi Hname Hext Hfirst.
  - assert (Hin0 : In r0 rows) by (apply list_elem_of_In, list_elem_of_lookup; eauto).
    destruct (best_split rows name) as (k & r & Hbest & Hk & Hr & Hbefore & Hafter);
      [eauto|exact Hgood|].
    assert (Hin : In r rows) by (apply list_elem_of_In, list_elem_of_lookup; eauto).
    rewrite Hbest. f_equal.
    destruct (Nat.lt_trichotomy k i) as [Hlt|[->|Hgt]].
    + exfalso. pose proof (Hfirst k r Hlt Hk Hr) as Hneq.
      rewrite leb_antisym in Hneq; [discriminate| |now apply Hext].
      apply ltb_false_leb; auto. now apply (Hafter i).
    + congruence.
    + exfalso. pose proof (Hbefore i r0 Hi Hname Hgt) as Hlt.
      apply ltb_leb_false in Hlt. rewrite Hext in Hlt; auto. discriminate.
  - assert (Hin0 : In r0 rows) by (apply list_elem_of_In, list_elem_of_lookup; eauto).
    destruct (worst_split rows name) as (k & r & Hworst & Hk & Hr & Hbefore & Hafter);
      [eauto|exact Hgood|].
    assert (Hin : In r rows) by (apply list_elem_of_In, list_elem_of_lookup; eauto).
    rewrite Hworst. f_equal.
    destruct (Nat.lt_trichotomy k i) as [Hlt|[->|Hgt]].
    + exfalso. pose proof (Hfirst k r Hlt Hk Hr) as Hneq.
      rewrite leb_antisym in Hneq; [discriminate|now apply Hext|].
      apply ltb_false_leb; auto. now apply (Hafter i).
    + congruence.
    + exfalso. pose proof (Hbefore i r0 Hi Hname Hgt) as Hlt.
      apply ltb_leb_false in Hlt. rewrite Hext in Hlt; auto. discriminate.
Qed.

Lemma first_of_tied_rows_is_selected_witness :
  best (pd_DataFrame tied_rows) "Penicillin" = Ok (sample_row "A" "positive" "Penicillin" 1) /\
  worst (pd_DataFrame tied_rows) "Penicillin" = Ok (sample_row "B" "negative" "Penicillin" 5).
Proof.
  assert (Hgood : forall r, In r tied_rows -> antibiotic r = "Penicillin" ->
                            is_nan (mic r) = false).
  { intros r [<-|[<-|[<-|[<-|[<-|[]]]]]] _; reflexivity. }
  destruct (first_of_tied_rows_is_selected tied_rows "Penicillin" Hgood) as [Hmin Hmax].
  split.
  - apply (Hmin 0); [reflexivity|reflexivity| |intros j r Hj; lia].
    intros r [<-|[<-|[<-|[<-|[<-|[]]]]]] E; try reflexivity; discriminate E.
  - apply (Hmax 1); [reflexivity|reflexivity| |].
    + intros r [<-|[<-|[<-|[<-|[<-|[]]]]]] E; try reflexivity; discriminate E.
    + intros j r Hj Hr _. destruct j as [|j]; [|lia]. injection Hr as <-. reflexivity.
Defined.

End MostAndLeast.

(** ** The data explorer *)

Section Explorer.

Lemma filter_true {A : Type} (l : list A) : List.filter (fun _ => true) l = l.
Proof. induction l as [|x l IH]; simpl; [reflexivity|]. now rewrite IH. Qed.

(** One of the two [if] statements: a selection other than [All] keeps
    the rows whose column has the selected value. *)
Lemma selection_step {A : Type} (eq : A -> string -> bool) (field : row -> A)
    (colname value : string) (df : DataFrame) :
  has_columns df = true ->
  (if negb (String.eqb value "All")
   then s ← column df colname field; Ok (select df (series_eq eq s value))
   else Ok df) =
  Ok {| has_columns := true;
        items := List.filter
                   (fun ir => String.eqb value "All" || eq (field (snd ir)) value)
                   (items df) |}.
Proof.
  intros Hcols. destruct (String.eqb value "All"); cbn [negb orb].
  - rewrite filter_true. destruct df as [cols its]. simpl in Hcols. now subst cols.
  - rewrite column_Ok by exact Hcols. unfold mbind, result_bind.
    now rewrite select_series_eq, Hcols.
Qed.

(** The rows that the two selections keep. *)
Lemma filtered_df_frame (df : DataFrame) (gram name : string) :
  has_columns df = true ->
  filtered_df df gram name =
  Ok {| has_columns := true;
        items :=
          List.filter
            (fun ir => (String.eqb name "All" || String.eqb (antibiotic (snd ir)) name))
            (List.filter
               (fun ir => (String.eqb gram "All" || json_eq_str (gram_staining (snd ir)) gram))
               (items df)) |}.
Proof.
  intros Hcols. unfold filtered_df.
  rewrite (selection_step json_eq_str gram_staining "gram_staining" gram df Hcols).
  unfold mbind at 1, result_bind at 1.
  rewrite (selection_step String.eqb antibiotic "antibiotic" name) by reflexivity.
  reflexivity.
Qed.

(** C7: with both selections on [All] the explorer shows the table as it
    is; and on a table with at least one row (the script only gets to
    the explorer with such a table, line 44 raises on an empty one),
    whatever the two selections are, the rows shown are an
    order-preserving subsequence of the rows of the table: those that a
    selection other than [All] does not exclude. *)
Theorem filtered_rows_are_a_subsequence (rows : list row) (gram name : string) :
  filtered_df (pd_DataFrame rows) "All" "All" = Ok (pd_DataFrame rows) /\
  (rows <> [] ->
   exists out,
     filtered_df (pd_DataFrame rows) gram name = Ok out /\
     items out `sublist_of` items (pd_DataFrame rows) /\
     rows_of out `sublist_of` rows /\
     rows_of out =
       List.filter
         (fun r => (String.eqb gram "All" || json_eq_str (gram_staining r) gram)
                   && (String.eqb name "All" || String.eqb (antibiotic r) name)) rows).
Proof.
  split; [reflexivity|]. intros Hne.
  apply has_columns_pd_DataFrame in Hne as Hcols.
  rewrite (filtered_df_frame _ gram name Hcols). eexists. split; [reflexivity|].
  assert (Hrows :
    rows_of
      {| has_columns := true;
         items :=
           List.filter
             (fun ir => (String.eqb name "All" || String.eqb (antibiotic (snd ir)) name))
             (List.filter
                (fun ir => (String.eqb gram "All"
                            || json_eq_str (gram_staining (snd ir)) gram))
                (items (pd_DataFrame rows))) |} =
    List.filter
      (fun r => (String.eqb gram "All" || json_eq_str (gram_staining r) gram)
                && (String.eqb name "All" || String.eqb (antibiotic r) name)) rows).
  { unfold rows_of. cbn [items]. rewrite filter_filter.
    rewrite (map_snd_filter
               (fun r => (String.eqb gram "All" || json_eq_str (gram_staining r) gram)
                         && (String.eqb name "All" || String.eqb (antibiotic r) name))).
    fold (rows_of (pd_DataFrame rows)). now rewrite rows_of_pd_DataFrame. }
  split; [|split].
  - cbn [items]. etransitivity; apply filter_sublist.
  - rewrite Hrows. apply filter_sublist.
  - exact Hrows.
Qed.

Lemma filtered_rows_are_a_subsequence_witness :
  filtered_df (pd_DataFrame tied_rows) "All" "All" = Ok (pd_DataFrame tied_rows) /\
  exists out,
    filtered_df (pd_DataFrame tied_rows) "negative" "Penicillin" = Ok out /\
    items out `sublist_of` items (pd_DataFrame tied_rows) /\
    rows_of out `sublist_of` tied_rows /\
    rows_of out =
      List.filter
        (fun r => (String.eqb "negative" "All" || json_eq_str (gram_staining r) "negative")
                  && (String.eqb "Penicillin" "All" || String.eqb (antibiotic r) "Penicillin"))
        tied_rows.
Proof.
  destruct (filtered_rows_are_a_subsequence tied_rows "negative" "Penicillin") as [Hall Hsub].
  split; [exact Hall|]. apply Hsub. discriminate.
Defined.

End Explorer.

(** ** More on the loader: composition and failure *)

Section LoaderComposition.

Lemma for_each_acc {X A : Type} (body : X -> result A) (xs : list X) (acc : list A) :
  for_each body xs acc = (ys ← for_each body xs []; Ok (acc ++ ys)).
Proof.
  revert acc. induction xs as [|x xs IH]; intros acc; simpl.
  - now rewrite app_nil_r.
  - destruct (body x) as [e|err]; simpl; [|reflexivity].
    rewrite (IH (acc ++ [e])), (IH [e]).
    destruct (for_each body xs []) as [ys|err]; simpl; [|reflexivity].
    now rewrite <- app_assoc.
Qed.

Lemma transform_records_acc (raw : list (gmap string json)) (acc : list row) :
  transform_records raw acc = (rows ← transform_records raw []; Ok (acc ++ rows)).
Proof.
  revert acc. induction raw as [|record raw IH]; intros acc.
  - simpl. now rewrite app_nil_r.
  - change (transform_records (record :: raw) acc)
      with (transformed_data' ← transform_record record acc;
            transform_records raw transformed_data').
    change (transform_records (record :: raw) [])
      with (transformed_data' ← transform_record record [];
            transform_records raw transformed_data').
    unfold transform_record. rewrite (for_each_acc _ _ acc).
    destruct (for_each (transformed_entry record) antibiotics []) as [g|err];
      [|reflexivity].
    simpl.
    rewrite (IH (acc ++ g)), (IH g).
    destruct (transform_records raw []) as [rows|err]; simpl; [|reflexivity].
    now rewrite <- app_assoc.
Qed.

Lemma load_cons (record : gmap string json) (raw : list (gmap string json)) :
  load_and_transform_data (record :: raw) =
  (group ← for_each (transformed_entry record) antibiotics [];
   rows ← load_and_transform_data raw;
   Ok (group ++ rows)).
Proof.
  unfold load_and_transform_data.
  change (transform_records (record :: raw) [])
    with (transformed_data' ← transform_record record []; transform_records raw transformed_data').
  unfold transform_record.
  destruct (for_each (transformed_entry record) antibiotics []) as [g|err];
    [|reflexivity].
  simpl. apply transform_records_acc.
Qed.

(** X1: loading two datasets one after the other is loading their
    concatenation: the table of [raw1 ++ raw2] is the table of [raw1]
    followed by the table of [raw2], and the exception, if there is one,
    is that of [raw1] when [raw1] fails and that of [raw2] otherwise. *)
Theorem load_app (raw1 raw2 : list (gmap string json)) :
  load_and_transform_data (raw1 ++ raw2) =
  (rows1 ← load_and_transform_data raw1;
   rows2 ← load_and_transform_data raw2;
   Ok (rows1 ++ rows2)).
Proof.
  induction raw1 as [|record raw1 IH].
  - simpl. destruct (load_and_transform_data raw2); reflexivity.
  - rewrite <- app_comm_cons, !load_cons, IH.
    destruct (for_each (transformed_entry record) antibiotics []) as [g|err]; simpl;
      [|reflexivity].
    destruct (load_and_transform_data raw1) as [rows1|err]; simpl; [|reflexivity].
    destruct (load_and_transform_data raw2) as [rows2|err]; simpl; [|reflexivity].
    now rewrite app_assoc.
Qed.

Lemma transformed_entry_Raise (record : gmap string json) (name : string) (e : exn) :
  transformed_entry record name = Raise e ->
  (exists key, e = KeyError key /\ record !! key = None /\
               In key ["Bacteria"; name; "Gram_Staining"; "Genus"]) \/
  (e = TypeError /\ exists v, record !! name = Some v /\ numeric (Some v) = false /\
                   (v = JNull \/ (exists s, v = JStr s) \/ (exists n, v = JBig n))).
Proof.
  unfold transformed_entry, getitem.
  destruct (record !! "Bacteria") as [b|] eqn:Hb; simpl.
  2:{ intros [= <-]. left. exists "Bacteria". repeat split; simpl; auto. }
  destruct (record !! name) as [v|] eqn:Hv; simpl.
  2:{ intros [= <-]. left. exists name. repeat split; simpl; auto. }
  destruct (record !! "Gram_Staining") as [g|] eqn:Hg; simpl.
  2:{ intros [= <-]. left. exists "Gram_Staining". repeat split; simpl; auto. }
  destruct (record !! "Genus") as [ge|] eqn:Hge; simpl.
  2:{ intros [= <-]. left. exists "Genus". repeat split; simpl; auto. }
  destruct v as [|x|s|n]; simpl; intros [= <-]; right; (split; [reflexivity|]);
    eexists; (split; [reflexivity|]); (split; [reflexivity|]); eauto.
Qed.

Lemma for_each_Raise {X A : Type} (body : X -> result A) (xs : list X) (acc : list A)
    (e : exn) :
  for_each body xs acc = Raise e -> exists x, In x xs /\ body x = Raise e.
Proof.
  revert acc. induction xs as [|x xs IH]; intros acc; simpl; [discriminate|].
  destruct (body x) as [y|err] eqn:Hx; simpl.
  - intros H. destruct (IH _ H) as (x' & Hin & Hx'). eauto.
  - intros [= <-]. eauto.
Qed.

(** X2: on records whose fields hold null, numbers and strings, when
    loading fails, it fails at the first record that has not the shape
    the loader reads, all records before it having it, and the exception
    tells what that record misses: a [KeyError] carries the name of a
    field the record does not have, and a [TypeError] means that one of
    its antibiotics has a value that [np.log10] does not take: null, a
    string or an integer outside the range of the 64-bit integers. *)
Theorem load_failure (raw : list (gmap string json)) (e : exn) :
  load_and_transform_data raw = Raise e ->
  exists before record after,
    raw = before ++ record :: after /\
    forallb well_shaped before = true /\
    well_shaped record = false /\
    ((exists key, e = KeyError key /\ record !! key = None /\
                  In key (["Bacteria"; "Gram_Staining"; "Genus"] ++ antibiotics)) \/
     (e = TypeError /\
      exists name v, In name antibiotics /\ record !! name = Some v /\
                     numeric (Some v) = false /\
                     (v = JNull \/ (exists s, v = JStr s) \/ (exists n, v = JBig n)))).
Proof.
  induction raw as [|record raw IH]; [discriminate|].
  rewrite load_cons.
  destruct (for_each (transformed_entry record) antibiotics []) as [g|err] eqn:Hg; simpl.
  - destruct (load_and_transform_data raw) as [rows|err] eqn:Hraw; simpl; [discriminate|].
    intros [= <-]. destruct (IH eq_refl) as (before & bad & after & -> & Hshape & Hbad & He).
    exists (record :: before), bad, after. split; [reflexivity|].
    split; [|auto]. simpl. rewrite Hshape, andb_true_r.
    apply well_shaped_entries. apply for_each_Ok in Hg as (ys & Hys & _). eauto.
  - intros [= <-]. exists [], record, raw. split; [reflexivity|]. split; [reflexivity|].
    apply for_each_Raise in Hg as (name & Hname & Hentry).
    split.
    + destruct (well_shaped record) eqn:Hw; [|reflexivity].
      apply well_shaped_entries in Hw as (group & Hgroup).
      apply list_elem_of_In, list_elem_of_lookup in Hname as [j Hj].
      destruct (Forall2_lookup_l _ _ _ j name Hgroup Hj) as (r & _ & Hr). congruence.
    + apply transformed_entry_Raise in Hentry as [(key & -> & Hnone & Hkey)|(-> & v & Hv & Hnum & Hkind)].
      * left. exists key. split; [reflexivity|]. split; [exact Hnone|].
        simpl in Hkey, Hname. simpl. intuition (subst; auto).
      * right. split; [reflexivity|]. exists name, v. tauto.
Qed.

(** An integer of 2^64 is a number of the JSON file that the loader
    does not take: [np.log10] raises a [TypeError] on it. *)
Example integer_beyond_64_bits_is_refused :
  load_and_transform_data
    [raw_record "S. pyogenes" "Streptococcus" "positive" 0.01 14 10;
     <["Penicillin" := JBig (2 ^ 64)]> unstained] = Raise TypeError.
Proof. vm_compute. reflexivity. Qed.

Lemma load_failure_witness :
  exists before record after,
    [raw_record "S. pyogenes" "Streptococcus" "positive" 0.01 14 10;
     delete "Genus" unstained] = before ++ record :: after /\
    forallb well_shaped before = true /\
    well_shaped record = false /\
    ((exists key, KeyError "Genus" = KeyError key /\ record !! key = None /\
                  In key (["Bacteria"; "Gram_Staining"; "Genus"] ++ antibiotics)) \/
     (KeyError "Genus" = TypeError /\
      exists name v, In name antibiotics /\ record !! name = Some v /\
                     numeric (Some v) = false /\
                     (v = JNull \/ (exists s, v = JStr s) \/ (exists n, v = JBig n)))).
Proof.
  apply (load_failure
           [raw_record "S. pyogenes" "Streptococcus" "positive" 0.01 14 10;
            delete "Genus" unstained] (KeyError "Genus")).
  vm_compute. reflexivity.
Defined.

End LoaderComposition.

(** ** More on the data explorer *)

Section ExplorerMore.

(** What the explorer returns on a table with at least one row. *)
Lemma filtered_df_rows (rows : list row) (gram name : string) :
  rows <> [] ->
  exists out,
    filtered_df (pd_DataFrame rows) gram name = Ok out /\
    rows_of out =
      List.filter
        (fun r => (String.eqb gram "All" || json_eq_str (gram_staining r) gram)
                  && (String.eqb name "All" || String.eqb (antibiotic r) name)) rows.
Proof.
  intros Hne. apply has_columns_pd_DataFrame in Hne as Hcols.
  rewrite (filtered_df_frame _ gram name Hcols). eexists. split; [reflexivity|].
  unfold rows_of. cbn [items]. rewrite filter_filter.
  rewrite (map_snd_filter
             (fun r => (String.eqb gram "All" || json_eq_str (gram_staining r) gram)
                       && (String.eqb name "All" || String.eqb (antibiotic r) name))).
  fold (rows_of (pd_DataFrame rows)). now rewrite rows_of_pd_DataFrame.
Qed.

Lemma filter_complement_Permutation {A : Type} (p q : A -> bool) (l : list A) :
  (forall x, In x l -> p x = negb (q x)) ->
  List.filter p l ++ List.filter q l ≡ₚ l.
Proof.
  induction l as [|x l IH]; intros H; simpl; [reflexivity|].
  assert (IH' : List.filter p l ++ List.filter q l ≡ₚ l).
  { apply IH. intros y Hy. apply H. now right. }
  rewrite (H x) by now left. destruct (q x); simpl.
  - rewrite <- Permutation_middle. now constructor.
  - now constructor.
Qed.

Lemma filter_disjoint_length {A : Type} (p q : A -> bool) (l : list A) :
  (forall x, p x = true -> q x = false) ->
  length (List.filter p l) + length (List.filter q l) <= length l.
Proof.
  intros H. induction l as [|x l IH]; simpl; [lia|].
  destruct (p x) eqn:Hp; [rewrite (H x Hp)|destruct (q x)]; simpl; lia.
Qed.

Lemma json_eq_str_eq (v : json) (s : string) : json_eq_str v s = true <-> v = JStr s.
Proof.
  destruct v as [|x|t|n]; simpl; try (split; [discriminate|intros [=]]).
  rewrite String.eqb_eq. split; [now intros ->|now intros [= ->]].
Qed.

(** X6: the two gram stainings split the rows that the explorer shows: for
    a selected antibiotic (or [All]), no row is shown both under
    ['positive'] and under ['negative'], the two selections together
    never show more rows than [All] does, and when every row of the
    table has one of the two gram stainings, the rows shown under [All]
    are those shown under ['positive'] followed by those shown under
    ['negative'], up to their order. *)
Theorem gram_selections_partition (rows : list row) (name : string) :
  rows <> [] ->
  exists every pos neg,
    filtered_df (pd_DataFrame rows) "All" name = Ok every /\
    filtered_df (pd_DataFrame rows) "positive" name = Ok pos /\
    filtered_df (pd_DataFrame rows) "negative" name = Ok neg /\
    (forall r, In r (rows_of pos) -> In r (rows_of neg) -> False) /\
    length (rows_of pos) + length (rows_of neg) <= length (rows_of every) /\
    ((forall r, In r rows ->
        gram_staining r = JStr "positive" \/ gram_staining r = JStr "negative") ->
     rows_of pos ++ rows_of neg ≡ₚ rows_of every).
Proof.
  intros Hne.
  destruct (filtered_df_rows rows "All" name Hne) as (every & Hevery & Re).
  destruct (filtered_df_rows rows "positive" name Hne) as (pos & Hpos & Rp).
  destruct (filtered_df_rows rows "negative" name Hne) as (neg & Hneg & Rn).
  exists every, pos, neg. repeat (split; [assumption|]).
  rewrite Re, Rp, Rn. cbn [String.eqb Ascii.eqb Bool.eqb orb andb].
  set (sel := fun r : row => String.eqb name "All" || String.eqb (antibiotic r) name).
  assert (Hsplit : forall g,
            List.filter (fun r => json_eq_str (gram_staining r) g && sel r) rows =
            List.filter (fun r => json_eq_str (gram_staining r) g) (List.filter sel rows)).
  { intros g. rewrite filter_filter. apply List.filter_ext. intros r. apply andb_comm. }
  change (List.filter (fun r => json_eq_str (gram_staining r) "positive"
                                && (String.eqb name "All" || String.eqb (antibiotic r) name)) rows)
    with (List.filter (fun r => json_eq_str (gram_staining r) "positive" && sel r) rows).
  change (List.filter (fun r => json_eq_str (gram_staining r) "negative"
                                && (String.eqb name "All" || String.eqb (antibiotic r) name)) rows)
    with (List.filter (fun r => json_eq_str (gram_staining r) "negative" && sel r) rows).
  change (List.filter (fun r => String.eqb name "All" || String.eqb (antibiotic r) name) rows)
    with (List.filter sel rows).
  rewrite !Hsplit. split; [|split].
  - intros r Hp Hn. apply filter_In in Hp as [_ Hp]. apply filter_In in Hn as [_ Hn].
    apply json_eq_str_eq in Hp, Hn. congruence.
  - apply filter_disjoint_length. intros r Hp. apply json_eq_str_eq in Hp. now rewrite Hp.
  - intros Hgram. apply filter_complement_Permutation. intros r Hr.
    apply filter_In in Hr as [Hr _]. destruct (Hgram r Hr) as [-> | ->]; reflexivity.
Qed.

Lemma gram_selections_partition_witness :
  exists every pos neg,
    filtered_df (pd_DataFrame tied_rows) "All" "Penicillin" = Ok every /\
    filtered_df (pd_DataFrame tied_rows) "positive" "Penicillin" = Ok pos /\
    filtered_df (pd_DataFrame tied_rows) "negative" "Penicillin" = Ok neg /\
    (forall r, In r (rows_of pos) -> In r (rows_of neg) -> False) /\
    length (rows_of pos) + length (rows_of neg) <= length (rows_of every) /\
    ((forall r, In r tied_rows ->
        gram_staining r = JStr "positive" \/ gram_staining r = JStr "negative") ->
     rows_of pos ++ rows_of neg ≡ₚ rows_of every).
Proof.
  apply (gram_selections_partition tied_rows "Penicillin"). discriminate.
Defined.

End ExplorerMore.

(** ** The table of one antibiotic *)

Section Slices.

Lemma group_shape (record : gmap string json) (group : list row) :
  Forall2 (fun name r => transformed_entry record name = Ok r) antibiotics group ->
  exists p s n,
    group = [p; s; n] /\
    transformed_entry record "Penicillin" = Ok p /\ antibiotic p = "Penicillin" /\
    transformed_entry record "Streptomycin" = Ok s /\ antibiotic s = "Streptomycin" /\
    transformed_entry record "Neomycin" = Ok n /\ antibiotic n = "Neomycin".
Proof.
  unfold antibiotics. intros H.
  apply Forall2_cons_inv_l in H as (p & g1 & Hp & H & ->).
  apply Forall2_cons_inv_l in H as (s & g2 & Hs & H & ->).
  apply Forall2_cons_inv_l in H as (n & g3 & Hn & H & ->).
  apply Forall2_nil_inv_l in H as ->.
  exists p, s, n. split; [reflexivity|].
  pose proof Hp as Hp'. pose proof Hs as Hs'. pose proof Hn as Hn'.
  apply transformed_entry_Ok in Hp' as (? & ? & ? & ? & _ & _ & _ & _ & ->).
  apply transformed_entry_Ok in Hs' as (? & ? & ? & ? & _ & _ & _ & _ & ->).
  apply transformed_entry_Ok in Hn' as (? & ? & ? & ? & _ & _ & _ & _ & ->).
  simpl. auto 10.
Qed.

Lemma group_slice (record : gmap string json) (group : list row) (name : string) :
  Forall2 (fun name r => transformed_entry record name = Ok r) antibiotics group ->
  In name antibiotics ->
  exists r,
    List.filter (fun r => String.eqb (antibiotic r) name) group = [r] /\
    transformed_entry record name = Ok r.
Proof.
  intros Hgroup Hname.
  destruct (group_shape _ _ Hgroup) as (p & s & n & -> & Hp & Ap & Hs & As & Hn & An).
  simpl. rewrite Ap, As, An.
  simpl in Hname. destruct Hname as [<-|[<-|[<-|[]]]]; simpl; eauto.
Qed.

(** Every record contributes its entry for every antibiotic. *)
Lemma load_contains (raw : list (gmap string json)) (rows : list row)
    (record : gmap string json) (name : string) :
  load_and_transform_data raw = Ok rows -> In record raw -> In name antibiotics ->
  exists r, In r rows /\ transformed_entry record name = Ok r.
Proof.
  intros Hload Hrec Hname. apply load_Ok in Hload as (groups & Hgroups & ->).
  apply list_elem_of_In, list_elem_of_lookup in Hrec as [i Hi].
  destruct (Forall2_lookup_l _ _ _ i record Hgroups Hi) as (group & Hgroup & Hentries).
  apply list_elem_of_In, list_elem_of_lookup in Hname as [j Hj].
  destruct (Forall2_lookup_l _ _ _ j name Hentries Hj) as (r & Hr & Hentry).
  exists r. split; [|exact Hentry]. apply in_concat. exists group.
  split; apply list_elem_of_In, list_elem_of_lookup; eauto.
Qed.

(** X5: selecting one antibiotic in the explorer, with the gram staining on
    [All], on the table loaded from a dataset with at least one record:
    the rows shown are the entries of that antibiotic, one per record of
    the dataset and in the order of the records. *)
Theorem antibiotic_selection_has_one_row_per_record
    (raw : list (gmap string json)) (name : string) :
  forallb well_shaped raw = true -> raw <> [] -> In name antibiotics ->
  exists rows out,
    load_and_transform_data raw = Ok rows /\
    filtered_df (pd_DataFrame rows) "All" name = Ok out /\
    length (rows_of out) = length raw /\
    Forall2 (fun record r => transformed_entry record name = Ok r) raw (rows_of out).
Proof.
  intros Hshape Hne Hname. apply load_total in Hshape as [rows Hload]. exists rows.
  pose proof Hload as Hgroups. apply load_Ok in Hgroups as (groups & Hgroups & ->).
  assert (Hrows : concat groups <> []).
  { destruct Hgroups as [|record group raw groups Hgroup _]; [congruence|].
    destruct (group_shape _ _ Hgroup) as (p & s & n & -> & _). discriminate. }
  destruct (filtered_df_rows _ "All" name Hrows) as (out & Hout & Rout).
  exists out. split; [exact Hload|]. split; [exact Hout|].
  assert (Hnot_all : String.eqb name "All" = false).
  { simpl in Hname. destruct Hname as [<-|[<-|[<-|[]]]]; reflexivity. }
  assert (Hall : Forall2 (fun record r => transformed_entry record name = Ok r) raw
                   (rows_of out)).
  { rewrite Rout. cbn [String.eqb Ascii.eqb Bool.eqb orb andb]. rewrite Hnot_all. cbn [orb].
    clear Hload Hrows Hout Rout Hne.
    induction Hgroups as [|record group raw groups Hgroup _ IH]; simpl; [constructor|].
    rewrite List.filter_app.
    destruct (group_slice _ _ _ Hgroup Hname) as (r & -> & Hr).
    simpl. constructor; assumption. }
  split; [|exact Hall]. symmetry. exact (Forall2_length _ _ _ Hall).
Qed.

Lemma antibiotic_selection_has_one_row_per_record_witness :
  exists rows out,
    load_and_transform_data two_species = Ok rows /\
    filtered_df (pd_DataFrame rows) "All" "Neomycin" = Ok out /\
    length (rows_of out) = length two_species /\
    Forall2 (fun record r => transformed_entry record "Neomycin" = Ok r) two_species
            (rows_of out).
Proof.
  apply (antibiotic_selection_has_one_row_per_record two_species "Neomycin").
  - vm_compute. reflexivity.
  - discriminate.
  - simpl. auto.
Defined.

End Slices.

(** ** The table keeps the whole dataset *)

Section Lossless.






End Lossless.

(** ** More on the statistics *)

Section StatisticsMore.

(** X8: on a table with at least one row the summary loop never raises: it
    returns one entry per antibiotic, in the order Penicillin,
    Streptomycin, Neomycin, and the two averages of an entry are the
    group means of its antibiotic, its ratio their quotient (NaN or an
    infinity when a group is empty or has mean zero). *)
Theorem summary_stats_entries (rows : list row) :
  rows <> [] ->
  exists p s n,
    summary_stats (pd_DataFrame rows) = Ok [p; s; n] /\
    map s_antibiotic [p; s; n] = antibiotics /\
    forall e, In e [p; s; n] ->
      group_mean (pd_DataFrame rows) "positive" (s_antibiotic e) = Ok (s_pos_avg e) /\
      group_mean (pd_DataFrame rows) "negative" (s_antibiotic e) = Ok (s_neg_avg e) /\
      s_ratio e = (s_neg_avg e / s_pos_avg e)%float.
Proof.
  intros Hne. apply has_columns_pd_DataFrame in Hne as Hcols.
  do 3 eexists. split.
  - unfold summary_stats, antibiotics. simpl.
    rewrite !summary_for_frame by exact Hcols. simpl. reflexivity.
  - split; [reflexivity|].
    intros e [<-|[<-|[<-|[]]]]; simpl; rewrite !group_mean_frame by exact Hcols; auto.
Qed.

Lemma summary_stats_entries_witness :
  exists p s n,
    summary_stats (pd_DataFrame negative_only) = Ok [p; s; n] /\
    map s_antibiotic [p; s; n] = antibiotics /\
    forall e, In e [p; s; n] ->
      group_mean (pd_DataFrame negative_only) "positive" (s_antibiotic e) = Ok (s_pos_avg e) /\
      group_mean (pd_DataFrame negative_only) "negative" (s_antibiotic e) = Ok (s_neg_avg e) /\
      s_ratio e = (s_neg_avg e / s_pos_avg e)%float.
Proof. apply (summary_stats_entries negative_only). discriminate. Defined.

(** X9: when one of the two Penicillin groups has no row, the headline
    ratio of a table with at least one row is NaN; nothing is raised. *)
Theorem ratio_is_nan_without_a_group (rows : list row) :
  rows <> [] ->
  (forall r, In r rows -> in_group "positive" "Penicillin" r = false) \/
  (forall r, In r rows -> in_group "negative" "Penicillin" r = false) ->
  effectiveness_ratio (pd_DataFrame rows) = Ok nan.
Proof.
  intros Hne Hnone.
  rewrite effectiveness_ratio_frame by now apply has_columns_pd_DataFrame.
  rewrite rows_of_pd_DataFrame. f_equal. destruct Hnone as [Hnone|Hnone].
  - rewrite (group_mics_none "positive" "Penicillin" rows Hnone).
    change (mean_values []) with nan. apply div_nan_r.
  - rewrite (group_mics_none "negative" "Penicillin" rows Hnone).
    change (mean_values []) with nan. apply div_nan_l.
Qed.

Lemma ratio_is_nan_without_a_group_witness :
  effectiveness_ratio (pd_DataFrame negative_only) = Ok nan.
Proof.
  apply (ratio_is_nan_without_a_group negative_only); [discriminate|].
  left. intros r [<-|[<-|[]]]; reflexivity.
Defined.

(** X10: dividing by a mean that is zero does not raise: when the
    gram-positive mean is zero and the gram-negative mean is positive,
    the headline ratio is plus infinity. *)
Theorem ratio_is_infinite_over_zero (df : DataFrame) (neg : float) :
  gram_pos_pen df = Ok 0%float ->
  gram_neg_pen df = Ok neg ->
  (0 <? neg)%float = true ->
  effectiveness_ratio df = Ok infinity.
Proof.
  intros Hpos Hneg Hlt. unfold effectiveness_ratio. rewrite Hpos, Hneg. simpl.
  f_equal. now apply div_positive_by_zero.
Qed.

Lemma ratio_is_infinite_over_zero_witness :
  effectiveness_ratio
    (pd_DataFrame [sample_row "A" "positive" "Penicillin" 0;
                   sample_row "B" "negative" "Penicillin" 100]) = Ok infinity.
Proof.
  apply (ratio_is_infinite_over_zero _ 100); vm_compute; reflexivity.
Defined.

End StatisticsMore.

(** ** Extrema of series with missing values *)

Section ExtremumMissing.

Variable better : float -> float -> bool.
Variable worst_value : float.

Hypothesis better_asym : forall a b, better a b = true -> better b a = false.

Hypothesis better_than_not_worse :
  forall a b x,
    is_nan a = false -> is_nan b = false -> is_nan x = false ->
    better a b = true -> better x b = false -> better a x = true.

Hypothesis worst_value_not_nan : is_nan worst_value = false.

Lemma filled_not_nan (x : float) : is_nan (filled worst_value x) = false.
Proof. unfold filled. destruct (is_nan x) eqn:E; [exact worst_value_not_nan|exact E]. Qed.

Lemma fillna_not_nan (s : Series float) :
  Forall (fun iv => is_nan (snd iv) = false) (fillna worst_value s).
Proof.
  unfold fillna. apply Forall_map, Forall_forall. intros iv _. apply (filled_not_nan (snd iv)).
Qed.

Lemma idx_best_filled (s : Series float) :
  (exists iv, In iv s /\ is_nan (snd iv) = false) ->
  exists pre i v post,
    idx_best better worst_value s = Ok i /\
    fillna worst_value s = pre ++ (i, v) :: post /\
    Forall (fun x => better v (snd x) = true) pre /\
    Forall (fun x => better (snd x) v = false) post.
Proof.
  intros (iv0 & Hin & Hiv0). unfold idx_best.
  assert (Hsome : forallb (fun iv : nat * float => is_nan (snd iv)) s = false).
  { destruct (forallb _ s) eqn:E; [|reflexivity].
    rewrite forallb_forall in E. rewrite (E iv0 Hin) in Hiv0. discriminate. }
  rewrite Hsome. pose proof (fillna_not_nan s) as Hgood.
  destruct (fillna worst_value s) as [|iv s'] eqn:Hfill.
  { destruct s; [destruct Hin|discriminate]. }
  destruct (first_best_split better better_asym better_than_not_worse iv s' Hgood)
    as (pre & post & Heq & Hpre & Hpost).
  destruct (first_best better iv s') as [i v] eqn:E. simpl in *.
  exists pre, i, v, post. auto.
Qed.

Lemma idx_best_all_nan (s : Series float) :
  (forall iv, In iv s -> is_nan (snd iv) = true) ->
  idx_best better worst_value s = Raise ValueError.
Proof.
  intros Hall. unfold idx_best.
  assert (H : forallb (fun iv : nat * float => is_nan (snd iv)) s = true)
    by (apply forallb_forall; exact Hall).
  now rewrite H.
Qed.

(** The rows of one antibiotic in a table, with their labels. *)
Lemma antibiotic_rows (rows : list row) (name : string) (j : nat) (r : row) :
  In (j, r) (List.filter (fun ir => String.eqb (antibiotic (snd ir)) name)
               (combine (seq 0 (length rows)) rows)) <->
  rows !! j = Some r /\ antibiotic r = name.
Proof.
  rewrite filter_In, In_enumerate. simpl. rewrite Nat.sub_0_r, String.eqb_eq.
  split; [intros [[_ H1] H2]|intros [H1 H2]]; auto with lia.
Qed.

(** The extremum expression on a table where the antibiotic has a row
    with a [mic] that is not missing. *)
Lemma extremum_row_filled (rows : list row) (name : string) :
  (exists r, In r rows /\ antibiotic r = name /\ is_nan (mic r) = false) ->
  exists i r,
    extremum_row (idx_best better worst_value) (pd_DataFrame rows) name = Ok r /\
    rows !! i = Some r /\ antibiotic r = name /\
    (forall j r', rows !! j = Some r' -> antibiotic r' = name -> j < i ->
                  better (filled worst_value (mic r)) (filled worst_value (mic r')) = true) /\
    (forall j r', rows !! j = Some r' -> antibiotic r' = name -> i < j ->
                  better (filled worst_value (mic r')) (filled worst_value (mic r)) = false).
Proof.
  intros (r0 & Hr0 & Hname0 & Hnan0).
  assert (Hcols : has_columns (pd_DataFrame rows) = true).
  { apply has_columns_pd_DataFrame. intros ->. destruct Hr0. }
  unfold extremum_row. rewrite !column_Ok by exact Hcols. simpl.
  rewrite !select_series_eq. rewrite column_Ok by exact Hcols. simpl.
  set (sub := List.filter (fun ir => String.eqb (antibiotic (snd ir)) name)
                (combine (seq 0 (length rows)) rows)).
  pose proof (antibiotic_rows rows name) as Hsub. fold sub in Hsub.
  assert (Hinc : increasing 0 sub) by apply increasing_filter, increasing_enumerate.
  assert (Hex : exists iv, In iv (map (fun ir : nat * row => (fst ir, mic (snd ir))) sub)
                           /\ is_nan (snd iv) = false).
  { apply list_elem_of_In, list_elem_of_lookup in Hr0 as [j Hj].
    exists (j, mic r0). split; [|exact Hnan0].
    apply in_map_iff. exists (j, r0). split; [reflexivity|]. now apply Hsub. }
  destruct (idx_best_filled _ Hex) as (pre & i & v & post & Hidx & Hsplit & Hpre & Hpost).
  rewrite Hidx. simpl.
  unfold fillna in Hsplit. rewrite map_map in Hsplit. simpl in Hsplit.
  apply map_eq_app in Hsplit as (pre' & rest & Hsub' & <- & Hrest).
  apply map_eq_cons in Hrest as ([i' r] & post' & -> & [= -> <-] & <-).
  simpl in *. rewrite Hsub' in Hinc.
  destruct (increasing_split _ _ _ _ _ Hinc) as [Hlt Hgt].
  exists i, r. unfold loc. simpl. fold sub. rewrite Hsub'.
  split; [now apply loc_items_split|].
  assert (Hir : rows !! i = Some r /\ antibiotic r = name).
  { apply Hsub. rewrite Hsub'. apply in_elt. }
  destruct Hir as [Hi Hn]. split; [exact Hi|]. split; [exact Hn|].
  rewrite Forall_forall in Hlt, Hgt.
  rewrite Forall_map, Forall_forall in Hpre, Hpost.
  split; intros j r' Hj Hn' Hord.
  - assert (Hin : In (j, r') sub) by now apply Hsub.
    rewrite Hsub' in Hin. apply in_app_or in Hin as [Hin|[[= -> ->]|Hin]].
    + apply (Hpre (j, r')), list_elem_of_In, Hin.
    + lia.
    + apply list_elem_of_In, Hgt in Hin. simpl in Hin. lia.
  - assert (Hin : In (j, r') sub) by now apply Hsub.
    rewrite Hsub' in Hin. apply in_app_or in Hin as [Hin|[[= -> ->]|Hin]].
    + apply list_elem_of_In, Hlt in Hin. simpl in Hin. lia.
    + lia.
    + apply (Hpost (j, r')), list_elem_of_In, Hin.
Qed.

(** The extremum expression on a table where the antibiotic has no row,
    or only rows with a missing [mic]. *)
Lemma extremum_row_missing (rows : list row) (name : string) :
  rows <> [] ->
  (forall r, In r rows -> antibiotic r = name -> is_nan (mic r) = true) ->
  extremum_row (idx_best better worst_value) (pd_DataFrame rows) name = Raise ValueError.
Proof.
  intros Hne Hall. apply has_columns_pd_DataFrame in Hne as Hcols.
  unfold extremum_row. rewrite !column_Ok by exact Hcols. simpl.
  rewrite !select_series_eq. rewrite column_Ok by exact Hcols. simpl.
  rewrite idx_best_all_nan; [reflexivity|].
  intros iv Hiv. apply in_map_iff in Hiv as ([j r] & <- & Hin). simpl.
  apply antibiotic_rows in Hin as [Hj Hn]. apply Hall; [|exact Hn].
  apply list_elem_of_In, list_elem_of_lookup. eauto.
Qed.

Lemma extremum_row_cases (rows : list row) (name : string) :
  rows <> [] ->
  (exists r, extremum_row (idx_best better worst_value) (pd_DataFrame rows) name = Ok r) \/
  extremum_row (idx_best better worst_value) (pd_DataFrame rows) name = Raise ValueError.
Proof.
  intros Hne.
  destruct (existsb (fun r => String.eqb (antibiotic r) name && negb (is_nan (mic r))) rows)
    eqn:E.
  - left. apply existsb_exists in E as (r & Hr & Hp).
    apply andb_true_iff in Hp as [Hn Hnan]. apply String.eqb_eq in Hn.
    apply negb_true_iff in Hnan.
    destruct (extremum_row_filled rows name) as (i & r' & H & _); eauto.
  - right. apply extremum_row_missing; [exact Hne|].
    intros r Hr Hn. destruct (is_nan (mic r)) eqn:Hnan; [reflexivity|].
    assert (Hc : existsb (fun r => String.eqb (antibiotic r) name && negb (is_nan (mic r)))
                   rows = true).
    { apply existsb_exists. exists r. split; [exact Hr|].
      rewrite Hnan. apply andb_true_iff. split; [now apply String.eqb_eq|reflexivity]. }
    congruence.
Qed.

End ExtremumMissing.

(** ** Most and least effective: missing values and failures *)

Section MostAndLeastMore.

Lemma best_filled (rows : list row) (name : string) :
  (exists r, In r rows /\ antibiotic r = name /\ is_nan (mic r) = false) ->
  exists i r,
    best (pd_DataFrame rows) name = Ok r /\
    rows !! i = Some r /\ antibiotic r = name /\
    (forall j r', rows !! j = Some r' -> antibiotic r' = name -> j < i ->
                  (filled infinity (mic r) <? filled infinity (mic r'))%float = true) /\
    (forall j r', rows !! j = Some r' -> antibiotic r' = name -> i < j ->
                  (filled infinity (mic r') <? filled infinity (mic r))%float = false).
Proof.
  apply (extremum_row_filled PrimFloat.ltb infinity ltb_asym ltb_better_than_not_worse).
  reflexivity.
Qed.

Lemma worst_filled (rows : list row) (name : string) :
  (exists r, In r rows /\ antibiotic r = name /\ is_nan (mic r) = false) ->
  exists i r,
    worst (pd_DataFrame rows) name = Ok r /\
    rows !! i = Some r /\ antibiotic r = name /\
    (forall j r', rows !! j = Some r' -> antibiotic r' = name -> j < i ->
                  (filled neg_infinity (mic r') <? filled neg_infinity (mic r))%float = true) /\
    (forall j r', rows !! j = Some r' -> antibiotic r' = name -> i < j ->
                  (filled neg_infinity (mic r) <? filled neg_infinity (mic r'))%float = false).
Proof.
  apply (extremum_row_filled (fun x y => PrimFloat.ltb y x) neg_infinity).
  - intros a b. apply ltb_asym.
  - apply gtb_better_than_not_worse.
  - reflexivity.
Qed.

Lemma best_cases (rows : list row) (name : string) :
  rows <> [] ->
  (exists r, best (pd_DataFrame rows) name = Ok r) \/
  best (pd_DataFrame rows) name = Raise ValueError.
Proof.
  apply (extremum_row_cases PrimFloat.ltb infinity ltb_asym ltb_better_than_not_worse).
  reflexivity.
Qed.

Lemma worst_cases (rows : list row) (name : string) :
  rows <> [] ->
  (exists r, worst (pd_DataFrame rows) name = Ok r) \/
  worst (pd_DataFrame rows) name = Raise ValueError.
Proof.
  apply (extremum_row_cases (fun x y => PrimFloat.ltb y x) neg_infinity).
  - intros a b. apply ltb_asym.
  - apply gtb_better_than_not_worse.
  - reflexivity.
Qed.

Lemma for_each_Raise_any {X A : Type} (body : X -> result A) (xs : list X)
    (acc : list A) (e : exn) :
  (forall x, In x xs -> (exists y, body x = Ok y) \/ body x = Raise e) ->
  (exists x, In x xs /\ body x = Raise e) ->
  for_each body xs acc = Raise e.
Proof.
  revert acc. induction xs as [|x xs IH]; intros acc Hall (x0 & Hin & Hx0); [destruct Hin|].
  simpl. destruct (Hall x (or_introl eq_refl)) as [[y Hy]|Hx]; rewrite ?Hx; [|reflexivity].
  rewrite Hy. simpl. apply IH.
  - intros x' Hx'. apply Hall. now right.
  - destruct Hin as [->|Hin]; [congruence|]. eauto.
Qed.

Lemma effective_for_cases (pick : DataFrame -> string -> result row) (df : DataFrame)
    (name : string) :
  (exists r, pick df name = Ok r) \/ pick df name = Raise ValueError ->
  (exists y, effective_for pick df name = Ok y) \/
  effective_for pick df name = Raise ValueError.
Proof.
  unfold effective_for. intros [[r ->]| ->]; simpl; eauto.
Qed.

(** X11: an antibiotic that has no row in a table with at least one row, or
    only rows whose [mic] is missing, has no most and no least effective
    case: both selections raise a [ValueError], and when it is one of
    the three antibiotics, so do the two loops that build the tables of
    the most and of the least effective cases. *)
Theorem extremum_without_a_value (rows : list row) (name : string) :
  rows <> [] ->
  (forall r, In r rows -> antibiotic r = name -> is_nan (mic r) = true) ->
  best (pd_DataFrame rows) name = Raise ValueError /\
  worst (pd_DataFrame rows) name = Raise ValueError /\
  (In name antibiotics ->
   most_effective (pd_DataFrame rows) = Raise ValueError /\
   least_effective (pd_DataFrame rows) = Raise ValueError).
Proof.
  intros Hne Hall.
  assert (Hbest : best (pd_DataFrame rows) name = Raise ValueError)
    by now apply extremum_row_missing.
  assert (Hworst : worst (pd_DataFrame rows) name = Raise ValueError)
    by now apply extremum_row_missing.
  split; [exact Hbest|]. split; [exact Hworst|]. intros Hname. split.
  - apply for_each_Raise_any.
    + intros x _. apply effective_for_cases, best_cases, Hne.
    + exists name. split; [exact Hname|]. unfold effective_for. now rewrite Hbest.
  - apply for_each_Raise_any.
    + intros x _. apply effective_for_cases, worst_cases, Hne.
    + exists name. split; [exact Hname|]. unfold effective_for. now rewrite Hworst.
Qed.

Lemma extremum_without_a_value_witness :
  best (pd_DataFrame negative_only) "Streptomycin" = Raise ValueError /\
  worst (pd_DataFrame negative_only) "Streptomycin" = Raise ValueError /\
  (In "Streptomycin" antibiotics ->
   most_effective (pd_DataFrame negative_only) = Raise ValueError /\
   least_effective (pd_DataFrame negative_only) = Raise ValueError).
Proof.
  apply (extremum_without_a_value negative_only "Streptomycin"); [discriminate|].
  intros r [<-|[<-|[]]] E; discriminate E.
Defined.

(** X12: rows whose [mic] is missing (NaN) are passed over: when an
    antibiotic has a row with a finite [mic], the rows selected as most
    and as least effective have a [mic] that is not missing, and that is
    at most, respectively at least, the [mic] of every row of the
    antibiotic whose [mic] is not missing. *)
Theorem missing_values_are_skipped (rows : list row) (name : string) :
  (exists r, In r rows /\ antibiotic r = name /\
             (neg_infinity <? mic r)%float = true /\ (mic r <? infinity)%float = true) ->
  exists lo hi,
    best (pd_DataFrame rows) name = Ok lo /\
    worst (pd_DataFrame rows) name = Ok hi /\
    In lo rows /\ antibiotic lo = name /\ is_nan (mic lo) = false /\
    In hi rows /\ antibiotic hi = name /\ is_nan (mic hi) = false /\
    forall r, In r rows -> antibiotic r = name -> is_nan (mic r) = false ->
      (mic lo <=? mic r)%float = true /\ (mic r <=? mic hi)%float = true.
Proof.
  intros (r1 & Hr1 & Hname1 & Hlow1 & Hhigh1).
  destruct (ltb_not_nan _ _ Hhigh1) as [Hnan1 _].
  assert (Hex : exists r, In r rows /\ antibiotic r = name /\ is_nan (mic r) = false)
    by eauto.
  destruct (best_filled rows name Hex) as (i & lo & Hbest & Hi & Hlo & Hbefore & Hafter).
  destruct (worst_filled rows name Hex) as (k & hi & Hworst & Hk & Hhi & Hbefore' & Hafter').
  assert (Hinlo : In lo rows) by (apply list_elem_of_In, list_elem_of_lookup; eauto).
  assert (Hinhi : In hi rows) by (apply list_elem_of_In, list_elem_of_lookup; eauto).
  assert (Hfill : forall w x, is_nan x = false -> filled w x = x).
  { intros w x Hx. unfold filled. now rewrite Hx. }
  assert (Hfnan : forall w x, is_nan w = false -> is_nan (filled w x) = false).
  { intros w x Hw. unfold filled. destruct (is_nan x) eqn:E; assumption. }
  (* the lowest filled value is at most each value that is not missing *)
  assert (Hmin : forall r, In r rows -> antibiotic r = name -> is_nan (mic r) = false ->
                   (filled infinity (mic lo) <=? mic r)%float = true).
  { intros r Hr Hname Hnan. apply list_elem_of_In, list_elem_of_lookup in Hr as [j Hj].
    destruct (Nat.lt_trichotomy j i) as [Hlt|[->|Hgt]].
    - apply ltb_leb. rewrite <- (Hfill infinity (mic r) Hnan). now apply (Hbefore j).
    - assert (r = lo) as -> by congruence. rewrite (Hfill _ _ Hnan). now apply leb_refl.
    - apply ltb_false_leb; auto. rewrite <- (Hfill infinity (mic r) Hnan) at 1.
      now apply (Hafter j). }
  assert (Hmax : forall r, In r rows -> antibiotic r = name -> is_nan (mic r) = false ->
                   (mic r <=? filled neg_infinity (mic hi))%float = true).
  { intros r Hr Hname Hnan. apply list_elem_of_In, list_elem_of_lookup in Hr as [j Hj].
    destruct (Nat.lt_trichotomy j k) as [Hlt|[->|Hgt]].
    - apply ltb_leb. rewrite <- (Hfill neg_infinity (mic r) Hnan). now apply (Hbefore' j).
    - assert (r = hi) as -> by congruence. rewrite (Hfill _ _ Hnan). now apply leb_refl.
    - apply ltb_false_leb; auto. rewrite <- (Hfill neg_infinity (mic r) Hnan) at 1.
      now apply (Hafter' j). }
  assert (Hlonan : is_nan (mic lo) = false).
  { destruct (is_nan (mic lo)) eqn:E; [|reflexivity]. exfalso.
    pose proof (Hmin r1 Hr1 Hname1 Hnan1) as Hle. unfold filled in Hle. rewrite E in Hle.
    pose proof (leb_ltb_trans _ _ _ Hle Hhigh1) as Habs. discriminate Habs. }
  assert (Hhinan : is_nan (mic hi) = false).
  { destruct (is_nan (mic hi)) eqn:E; [|reflexivity]. exfalso.
    pose proof (Hmax r1 Hr1 Hname1 Hnan1) as Hle. unfold filled in Hle. rewrite E in Hle.
    pose proof (ltb_leb_trans _ _ _ Hlow1 Hle) as Habs. discriminate Habs. }
  exists lo, hi. repeat (split; [assumption|]).
  intros r Hr Hname Hnan. split.
  - rewrite <- (Hfill infinity (mic lo) Hlonan). now apply Hmin.
  - rewrite <- (Hfill neg_infinity (mic hi) Hhinan). now apply Hmax.
Qed.

Lemma missing_values_are_skipped_witness :
  exists lo hi,
    best (pd_DataFrame (sample_row "N" "positive" "Penicillin" nan :: tied_rows))
         "Penicillin" = Ok lo /\
    worst (pd_DataFrame (sample_row "N" "positive" "Penicillin" nan :: tied_rows))
          "Penicillin" = Ok hi /\
    In lo (sample_row "N" "positive" "Penicillin" nan :: tied_rows) /\
    antibiotic lo = "Penicillin" /\ is_nan (mic lo) = false /\
    In hi (sample_row "N" "positive" "Penicillin" nan :: tied_rows) /\
    antibiotic hi = "Penicillin" /\ is_nan (mic hi) = false /\
    forall r, In r (sample_row "N" "positive" "Penicillin" nan :: tied_rows) ->
      antibiotic r = "Penicillin" -> is_nan (mic r) = false ->
      (mic lo <=? mic r)%float = true /\ (mic r <=? mic hi)%float = true.
Proof.
  apply (missing_values_are_skipped
           (sample_row "N" "positive" "Penicillin" nan :: tied_rows) "Penicillin").
  exists (sample_row "A" "positive" "Penicillin" 1).
  split; [right; now left|]. repeat split; reflexivity.
Defined.

End MostAndLeastMore.

(** ** From the dataset to the tables of the page *)

Section Pipeline.

Lemma for_each_all_Ok {X A : Type} (body : X -> result A) (Q : X -> A -> Prop)
    (xs : list X) :
  (forall x, In x xs -> exists y, body x = Ok y /\ Q x y) ->
  exists ys, for_each body xs [] = Ok ys /\ Forall2 Q xs ys.
Proof.
  intros Hall.
  assert (H : exists ys, Forall2 (fun x y => body x = Ok y /\ Q x y) xs ys).
  { induction xs as [|x xs IH]; [exists []; constructor|].
    destruct IH as [ys Hys]; [intros x' Hx'; apply Hall; now right|].
    destruct (Hall x (or_introl eq_refl)) as (y & Hy & HQ).
    exists (y :: ys). now constructor. }
  destruct H as [ys Hys]. exists ys. split.
  - apply for_each_Ok. exists ys. split; [|reflexivity].
    eapply Forall2_impl; [exact Hys|]. now intros x y [H _].
  - eapply Forall2_impl; [exact Hys|]. now intros x y [_ H].
Qed.

(** The rows of a loaded table come from the records, antibiotic by
    antibiotic. *)
Lemma loaded_row_record (raw : list (gmap string json)) (rows : list row) (r : row) :
  load_and_transform_data raw = Ok rows -> In r rows ->
  In (antibiotic r) antibiotics /\
  exists record,
    In record raw /\
    record !! "Bacteria" = Some (bacteria r) /\
    record !! antibiotic r = Some (JNum (mic r)) /\
    record !! "Gram_Staining" = Some (gram_staining r).
Proof.
  intros Hload Hin.
  destruct (load_row_origin _ _ _ Hload Hin) as (record & name & Hrec & Hname & Hentry).
  apply transformed_entry_Ok in Hentry as (b & g & ge & x & Hb & Hx & Hg & _ & ->).
  simpl. split; [exact Hname|]. exists record. auto.
Qed.

Lemma loaded_record_row (raw : list (gmap string json)) (rows : list row)
    (record : gmap string json) (name : string) (x : float) :
  load_and_transform_data raw = Ok rows -> In record raw -> In name antibiotics ->
  record !! name = Some (JNum x) ->
  exists r, In r rows /\ antibiotic r = name /\ mic r = x.
Proof.
  intros Hload Hrec Hname Hx.
  destruct (load_contains _ _ _ _ Hload Hrec Hname) as (r & Hr & Hentry).
  apply transformed_entry_Ok in Hentry as (b & g & ge & x' & _ & Hx' & _ & _ & ->).
  exists {| bacteria := b; antibiotic := name; mic := x'; gram_staining := g;
            genus := ge; log_mic := np_log10_float x' |}.
  simpl. split; [exact Hr|]. split; [reflexivity|]. congruence.
Qed.

(** The bounds that the two selections satisfy on rows without missing
    values, in the form the tables of the page need them. *)
Lemma best_worst_rows (rows : list row) (name : string) :
  (exists r, In r rows /\ antibiotic r = name) ->
  (forall r, In r rows -> antibiotic r = name -> is_nan (mic r) = false) ->
  exists lo hi,
    best (pd_DataFrame rows) name = Ok lo /\ worst (pd_DataFrame rows) name = Ok hi /\
    In lo rows /\ antibiotic lo = name /\ In hi rows /\ antibiotic hi = name /\
    (forall r, In r rows -> antibiotic r = name -> (mic lo <=? mic r)%float = true) /\
    (forall r, In r rows -> antibiotic r = name -> (mic r <=? mic hi)%float = true).
Proof.
  intros Hex Hgood.
  destruct (best_split rows name Hex Hgood) as (i & lo & Hbest & Hi & Hlo & Hbefore & Hafter).
  destruct (worst_split rows name Hex Hgood) as (k & hi & Hworst & Hk & Hhi & Hbefore' & Hafter').
  assert (Hinlo : In lo rows) by (apply list_elem_of_In, list_elem_of_lookup; eauto).
  assert (Hinhi : In hi rows) by (apply list_elem_of_In, list_elem_of_lookup; eauto).
  exists lo, hi. repeat (split; [assumption|]).
  split; intros r Hr Hname; pose proof (Hgood r Hr Hname) as Hnan;
    apply list_elem_of_In, list_elem_of_lookup in Hr as [j Hj].
  - destruct (Nat.lt_trichotomy j i) as [Hlt|[->|Hgt]].
    + apply ltb_leb. now apply (Hbefore j).
    + assert (r = lo) as -> by congruence. now apply leb_refl.
    + apply ltb_false_leb; auto. now apply (Hafter j).
  - destruct (Nat.lt_trichotomy j k) as [Hlt|[->|Hgt]].
    + apply ltb_leb. now apply (Hbefore' j).
    + assert (r = hi) as -> by congruence. now apply leb_refl.
    + apply ltb_false_leb; auto. now apply (Hafter' j).
Qed.

(** X13: the tables of the most and of the least effective cases, for a
    dataset with at least one record, whose records have the shape the
    loader reads and no missing (NaN) value: each table has one entry
    per antibiotic, in the order Penicillin, Streptomycin, Neomycin; the
    bacteria, the MIC and the gram staining of an entry are those of one
    record of the dataset; and the MIC of an entry is at most
    (respectively at least) the value every record has for that
    antibiotic. *)
Theorem most_and_least_effective_of_dataset (raw : list (gmap string json)) :
  forallb well_shaped raw = true ->
  raw <> [] ->
  (forall record name x, In record raw -> In name antibiotics ->
     record !! name = Some (JNum x) -> is_nan x = false) ->
  exists rows most least,
    load_and_transform_data raw = Ok rows /\
    most_effective (pd_DataFrame rows) = Ok most /\
    least_effective (pd_DataFrame rows) = Ok least /\
    map e_antibiotic most = antibiotics /\
    map e_antibiotic least = antibiotics /\
    (forall e, In e most \/ In e least ->
       exists record,
         In record raw /\
         record !! "Bacteria" = Some (e_bacteria e) /\
         record !! e_antibiotic e = Some (JNum (e_mic e)) /\
         record !! "Gram_Staining" = Some (e_gram_staining e)) /\
    (forall e record x, In e most -> In record raw ->
       record !! e_antibiotic e = Some (JNum x) -> (e_mic e <=? x)%float = true) /\
    (forall e record x, In e least -> In record raw ->
       record !! e_antibiotic e = Some (JNum x) -> (x <=? e_mic e)%float = true).
Proof.
  intros Hshape Hne Hnan. apply load_total in Hshape as [rows Hload]. exists rows.
  assert (Hrows : forall name, In name antibiotics ->
            (exists r, In r rows /\ antibiotic r = name) /\
            (forall r, In r rows -> antibiotic r = name -> is_nan (mic r) = false)).
  { intros name Hname. split.
    - destruct raw as [|record raw]; [congruence|].
      destruct (load_contains _ _ record name Hload) as (r & Hr & Hentry);
        [now left|exact Hname|].
      exists r. split; [exact Hr|].
      apply transformed_entry_Ok in Hentry as (? & ? & ? & ? & _ & _ & _ & _ & ->).
      reflexivity.
    - intros r Hr Hn.
      destruct (loaded_row_record _ _ _ Hload Hr) as (Ha & record & Hrec & _ & Hx & _).
      exact (Hnan record (antibiotic r) (mic r) Hrec Ha Hx). }
  set (picked := fun e : effective_entry =>
         exists record,
           In record raw /\
           record !! "Bacteria" = Some (e_bacteria e) /\
           record !! e_antibiotic e = Some (JNum (e_mic e)) /\
           record !! "Gram_Staining" = Some (e_gram_staining e)).
  destruct (for_each_all_Ok (effective_for best (pd_DataFrame rows))
              (fun name e => e_antibiotic e = name /\ picked e /\
                 forall record x, In record raw -> record !! name = Some (JNum x) ->
                                  (e_mic e <=? x)%float = true) antibiotics)
    as (most & Hmost & Qmost).
  { intros name Hname. destruct (Hrows name Hname) as [Hex Hgood].
    destruct (best_worst_rows rows name Hex Hgood)
      as (lo & _ & Hbest & _ & Hinlo & Hlo & _ & _ & Hmin & _).
    unfold effective_for. rewrite Hbest. simpl. eexists. split; [reflexivity|]. simpl.
    split; [reflexivity|]. split.
    - destruct (loaded_row_record _ _ _ Hload Hinlo) as (_ & record & Hrec & Hb & Hx & Hg).
      exists record. simpl. rewrite <- Hlo. auto.
    - intros record x Hrec Hx.
      destruct (loaded_record_row _ _ _ _ _ Hload Hrec Hname Hx) as (r & Hr & Hn & <-).
      now apply Hmin. }
  destruct (for_each_all_Ok (effective_for worst (pd_DataFrame rows))
              (fun name e => e_antibiotic e = name /\ picked e /\
                 forall record x, In record raw -> record !! name = Some (JNum x) ->
                                  (x <=? e_mic e)%float = true) antibiotics)
    as (least & Hleast & Qleast).
  { intros name Hname. destruct (Hrows name Hname) as [Hex Hgood].
    destruct (best_worst_rows rows name Hex Hgood)
      as (_ & hi & _ & Hworst & _ & _ & Hinhi & Hhi & _ & Hmax).
    unfold effective_for. rewrite Hworst. simpl. eexists. split; [reflexivity|]. simpl.
    split; [reflexivity|]. split.
    - destruct (loaded_row_record _ _ _ Hload Hinhi) as (_ & record & Hrec & Hb & Hx & Hg).
      exists record. simpl. rewrite <- Hhi. auto.
    - intros record x Hrec Hx.
      destruct (loaded_record_row _ _ _ _ _ Hload Hrec Hname Hx) as (r & Hr & Hn & <-).
      now apply Hmax. }
  exists most, least. split; [exact Hload|]. split; [exact Hmost|]. split; [exact Hleast|].
  assert (Hnames : forall (Q : string -> effective_entry -> Prop) names es,
            Forall2 (fun name e => e_antibiotic e = name /\ Q name e) names es ->
            map e_antibiotic es = names /\
            forall e, In e es -> Q (e_antibiotic e) e).
  { intros Q names es H. induction H as [|name e names es [He HQ] _ [IH1 IH2]].
    - split; [reflexivity|]. intros e [].
    - split; [simpl; now rewrite He, IH1|].
      intros e' [<-|He']; [now rewrite He|now apply IH2]. }
  apply Hnames in Qmost as [Nmost Pmost]. apply Hnames in Qleast as [Nleast Pleast].
  split; [exact Nmost|]. split; [exact Nleast|]. split; [|split].
  - intros e [He|He]; [apply (Pmost e He)|apply (Pleast e He)].
  - intros e record x He. apply (Pmost e He).
  - intros e record x He. apply (Pleast e He).
Qed.

Lemma most_and_least_effective_of_dataset_witness :
  exists rows most least,
    load_and_transform_data two_species = Ok rows /\
    most_effective (pd_DataFrame rows) = Ok most /\
    least_effective (pd_DataFrame rows) = Ok least /\
    map e_antibiotic most = antibiotics /\
    map e_antibiotic least = antibiotics /\
    (forall e, In e most \/ In e least ->
       exists record,
         In record two_species /\
         record !! "Bacteria" = Some (e_bacteria e) /\
         record !! e_antibiotic e = Some (JNum (e_mic e)) /\
         record !! "Gram_Staining" = Some (e_gram_staining e)) /\
    (forall e record x, In e most -> In record two_species ->
       record !! e_antibiotic e = Some (JNum x) -> (e_mic e <=? x)%float = true) /\
    (forall e record x, In e least -> In record two_species ->
       record !! e_antibiotic e = Some (JNum x) -> (x <=? e_mic e)%float = true).
Proof.
  apply (most_and_least_effective_of_dataset two_species).
  - vm_compute. reflexivity.
  - discriminate.
  - intros record name x [<-|[<-|[]]] [<-|[<-|[<-|[]]]] [= <-]; reflexivity.
Defined.

End Pipeline.

(** ** When the script runs through *)

Section Script.

Lemma has_value_row (rows : list row) (name : string) :
  existsb (fun r => String.eqb (antibiotic r) name && negb (is_nan (mic r))) rows = true <->
  exists r, In r rows /\ antibiotic r = name /\ is_nan (mic r) = false.
Proof.
  rewrite existsb_exists. split.
  - intros (r & Hr & Hp). apply andb_true_iff in Hp as [Hn Hnan].
    apply String.eqb_eq in Hn. apply negb_true_iff in Hnan. eauto.
  - intros (r & Hr & Hn & Hnan). exists r. split; [exact Hr|].
    rewrite Hnan. apply andb_true_iff. split; [now apply String.eqb_eq|reflexivity].
Qed.

Lemma best_Ok_has_value (rows : list row) (name : string) (r : row) :
  rows <> [] -> best (pd_DataFrame rows) name = Ok r ->
  exists r', In r' rows /\ antibiotic r' = name /\ is_nan (mic r') = false.
Proof.
  intros Hne Hbest. apply has_value_row.
  destruct (existsb _ rows) eqn:E; [reflexivity|]. exfalso.
  assert (Hraise : best (pd_DataFrame rows) name = Raise ValueError).
  { apply extremum_row_missing; [exact Hne|].
    intros r' Hr' Hn. destruct (is_nan (mic r')) eqn:Hnan; [reflexivity|].
    assert (Hc : existsb (fun r => String.eqb (antibiotic r) name && negb (is_nan (mic r)))
                   rows = true) by (apply has_value_row; eauto).
    congruence. }
  congruence.
Qed.

(** X14: on a dataset whose fields hold null, numbers and strings, the
    script computes all its values, whatever is chosen in the two
    select boxes, exactly when the dataset has at least one record,
    every record has the shape the loader reads (an integer outside the
    range of the 64-bit integers is not a number the loader takes), and
    every antibiotic has a value that is not missing (NaN) in some
    record.  A zero or
    negative MIC, an unknown gram staining or an empty group do not stop
    it.  On the empty dataset it stops at the first statistic, with the
    [KeyError] of the missing column. *)
Theorem script_completes_iff (raw : list (gmap string json)) (gram name : string) :
  ((exists d, run_script raw gram name = Ok d) <->
   forallb well_shaped raw = true /\ raw <> [] /\
   forall drug, In drug antibiotics ->
     exists record x, In record raw /\ record !! drug = Some (JNum x) /\ is_nan x = false) /\
  run_script [] gram name = Raise (KeyError "gram_staining").
Proof.
  split; [|reflexivity]. unfold run_script. split.
  - intros (d & Hd).
    apply bind_Ok in Hd as (rows & Hload & Hd).
    apply bind_Ok in Hd as (pos & Hpos & Hd).
    apply bind_Ok in Hd as (neg & _ & Hd).
    apply bind_Ok in Hd as (summary & _ & Hd).
    apply bind_Ok in Hd as (most & Hmost & _).
    assert (Hrows : rows <> []).
    { intros ->. discriminate Hpos. }
    split; [apply load_total; eauto|]. split.
    { intros ->. apply Hrows. now injection Hload as <-. }
    intros drug Hdrug. unfold most_effective in Hmost.
    apply for_each_Ok in Hmost as (es & Hes & _).
    apply list_elem_of_In, list_elem_of_lookup in Hdrug as [j Hj].
    destruct (Forall2_lookup_l _ _ _ j drug Hes Hj) as (e & _ & He).
    unfold effective_for in He. apply bind_Ok in He as (r & Hbest & _).
    destruct (best_Ok_has_value rows drug r Hrows Hbest) as (r' & Hr' & Hn & Hnan).
    destruct (loaded_row_record _ _ _ Hload Hr') as (_ & record & Hrec & _ & Hx & _).
    exists record, (mic r'). rewrite <- Hn. auto.
  - intros (Hshape & Hne & Hvalues).
    apply load_total in Hshape as [rows Hload]. rewrite Hload. simpl.
    assert (Hhas : forall drug, In drug antibiotics ->
              exists r, In r rows /\ antibiotic r = drug /\ is_nan (mic r) = false).
    { intros drug Hdrug. destruct (Hvalues drug Hdrug) as (record & x & Hrec & Hx & Hnan).
      destruct (loaded_record_row _ _ _ _ _ Hload Hrec Hdrug Hx) as (r & Hr & Hn & <-).
      eauto. }
    assert (Hrows : rows <> []).
    { destruct (Hhas "Penicillin") as (r & Hr & _); [now left|]. intros ->. destruct Hr. }
    apply has_columns_pd_DataFrame in Hrows as Hcols.
    unfold gram_pos_pen, gram_neg_pen. rewrite !group_mean_frame by exact Hcols. simpl.
    unfold summary_stats, antibiotics. simpl.
    rewrite !summary_for_frame by exact Hcols. simpl.
    destruct (for_each_all_Ok (effective_for best (pd_DataFrame rows)) (fun _ _ => True)
                antibiotics) as (most & Hmost & _).
    { intros drug Hdrug.
      destruct (best_filled rows drug (Hhas drug Hdrug)) as (i & r & Hbest & _).
      unfold effective_for. rewrite Hbest. simpl. eauto. }
    destruct (for_each_all_Ok (effective_for worst (pd_DataFrame rows)) (fun _ _ => True)
                antibiotics) as (least & Hleast & _).
    { intros drug Hdrug.
      destruct (worst_filled rows drug (Hhas drug Hdrug)) as (i & r & Hworst & _).
      unfold effective_for. rewrite Hworst. simpl. eauto. }
    unfold most_effective, least_effective. rewrite Hmost, Hleast. simpl.
    destruct (filtered_df_rows rows gram name Hrows) as (out & Hout & _).
    rewrite Hout. simpl. eauto.
Qed.

End Script.

(** ** The statistics in terms of the records *)

Section FromRecords.

Lemma group_mics_of_group (record : gmap string json) (group : list row)
    (gram name : string) :
  Forall2 (fun name r => transformed_entry record name = Ok r) antibiotics group ->
  In name antibiotics ->
  group_mics gram name group = record_values gram name [record].
Proof.
  intros Hgroup Hname.
  destruct (group_shape _ _ Hgroup) as (p & s & n & -> & Hp & _ & Hs & _ & Hn & _).
  apply transformed_entry_Ok in Hp as (b & g & ge & x & _ & Hx & Hg & _ & ->).
  apply transformed_entry_Ok in Hs as (? & g' & ? & y & _ & Hy & Hg' & _ & ->).
  apply transformed_entry_Ok in Hn as (? & g'' & ? & z & _ & Hz & Hg'' & _ & ->).
  assert (g' = g) as -> by congruence. assert (g'' = g) as -> by congruence.
  unfold group_mics, record_values, in_group. simpl. rewrite Hg.
  simpl in Hname. destruct Hname as [<-|[<-|[<-|[]]]]; simpl;
    rewrite ?Hx, ?Hy, ?Hz; destruct (json_eq_str g gram); reflexivity.
Qed.

Lemma record_values_cons (gram name : string) (record : gmap string json)
    (raw : list (gmap string json)) :
  record_values gram name (record :: raw) =
  record_values gram name [record] ++ record_values gram name raw.
Proof. unfold record_values. simpl. now rewrite app_nil_r. Qed.

(** X7: a group mean of the table loaded from a dataset with at least one
    record is the mean of the values that the records of that gram
    staining have for the antibiotic, taken in the order of the records:
    the reshaping into the long table and the selection by mask bring
    back exactly these values. *)
Theorem group_mean_of_dataset (raw : list (gmap string json)) (gram name : string) :
  forallb well_shaped raw = true -> raw <> [] -> In name antibiotics ->
  exists rows,
    load_and_transform_data raw = Ok rows /\
    group_mean (pd_DataFrame rows) gram name =
      Ok (mean_values (record_values gram name raw)).
Proof.
  intros Hshape Hne Hname. apply load_total in Hshape as [rows Hload]. exists rows.
  split; [exact Hload|].
  apply load_Ok in Hload as (groups & Hgroups & ->).
  assert (Hrows : concat groups <> []).
  { destruct Hgroups as [|record group raw groups Hgroup _]; [congruence|].
    destruct (group_shape _ _ Hgroup) as (p & s & n & -> & _). discriminate. }
  rewrite group_mean_pd by exact Hrows. do 2 f_equal. clear Hne Hrows.
  induction Hgroups as [|record group raw groups Hgroup _ IH]; [reflexivity|].
  rewrite record_values_cons. cbn [concat]. rewrite group_mics_app, IH.
  now rewrite (group_mics_of_group _ _ gram name Hgroup Hname).
Qed.

Lemma group_mean_of_dataset_witness :
  exists rows,
    load_and_transform_data two_species = Ok rows /\
    group_mean (pd_DataFrame rows) "negative" "Streptomycin" =
      Ok (mean_values (record_values "negative" "Streptomycin" two_species)).
Proof.
  apply (group_mean_of_dataset two_species "negative" "Streptomycin").
  - vm_compute. reflexivity.
  - discriminate.
  - simpl. auto.
Defined.

Lemma transformed_entry_insert (record : gmap string json) (key : string) (v : json)
    (name : string) :
  ~ In key fields -> In name antibiotics ->
  transformed_entry (<[key := v]> record) name = transformed_entry record name.
Proof.
  intros Hkey Hname. unfold transformed_entry, getitem.
  assert (Hlook : forall k, In k fields -> <[key := v]> record !! k = record !! k).
  { intros k Hk. apply lookup_insert_ne. intros ->. contradiction. }
  assert (Hn : In name fields) by (unfold fields; apply in_or_app; now right).
  rewrite !Hlook; [reflexivity| | | |]; unfold fields; simpl; auto.
Qed.

Lemma for_each_ext {X A : Type} (body body' : X -> result A) (xs : list X) (acc : list A) :
  (forall x, In x xs -> body x = body' x) ->
  for_each body xs acc = for_each body' xs acc.
Proof.
  revert acc. induction xs as [|x xs IH]; intros acc H; simpl; [reflexivity|].
  rewrite (H x) by now left. destruct (body' x); simpl; [|reflexivity].
  apply IH. intros x' Hx'. apply H. now right.
Qed.

(** X3: the loader reads the six fields of the dataset and nothing else: a
    field of another name, added to every record or changed in it,
    leaves the table (or the exception) as it is. *)
Theorem other_fields_are_ignored (raw : list (gmap string json)) (key : string)
    (v : json) :
  ~ In key fields ->
  load_and_transform_data (map (fun record => <[key := v]> record) raw) =
  load_and_transform_data raw.
Proof.
  intros Hkey. unfold load_and_transform_data. generalize (@nil row).
  induction raw as [|record raw IH]; intros acc; [reflexivity|].
  change (transform_records (map (fun record => <[key := v]> record) (record :: raw)) acc)
    with (transformed_data' ← transform_record (<[key := v]> record) acc;
          transform_records (map (fun record => <[key := v]> record) raw) transformed_data').
  change (transform_records (record :: raw) acc)
    with (transformed_data' ← transform_record record acc;
          transform_records raw transformed_data').
  unfold transform_record.
  rewrite (for_each_ext (transformed_entry (<[key := v]> record)) (transformed_entry record)).
  - destruct (for_each (transformed_entry record) antibiotics acc); [|reflexivity].
    simpl. apply IH.
  - intros name Hname. now apply transformed_entry_insert.
Qed.

Lemma other_fields_are_ignored_witness :
  load_and_transform_data
    (map (fun record => <["Source" := JStr "Burtin 1951"]> record) two_species) =
  load_and_transform_data two_species.
Proof.
  apply (other_fields_are_ignored two_species "Source" (JStr "Burtin 1951")).
  unfold fields. simpl. intros [H|[H|[H|[H|[H|[H|[]]]]]]]; discriminate H.
Defined.

End FromRecords.
